(** * bbbchatofx: the chat-overlay renderer of the OFX plugin

    A shallow embedding of [src/bbbchatofx.cpp]: the [ChatMessage] store, the
    range query of [ChatMessageRenderer::render], the fade curve of
    [drawMessage], the surface life cycle driven by the setters, and the
    copy-out loop of [effectRender].

    Conventions of the embedding.
    - A C++ [double] is a rational number ([Q]): arithmetic is exact and there
      is neither NaN nor an infinity.  Equalities between computed doubles are
      stated with [==] ([Qeq]).
    - A C++ [int] is an integer ([Z]); signed overflow is undefined behaviour
      in the source and lies outside the model.
    - A smart pointer ([Cairo::RefPtr], [Glib::RefPtr]) is an [option];
      dereferencing an empty one makes the operation fail ([None]).
    - Raw byte buffers ([uint8_t *]) are functions from a byte offset,
      relative to the base pointer, to a [byte]. *)

From Stdlib Require Import Bool String QArith Qround ZArith List Lia Lqa.
From Stdlib Require Import Sorting.Sorted Sorting.Permutation.
From Stdlib Require Import Init.Byte.
Import ListNotations.

Local Open Scope Z_scope.

(* ------------------------------------------------------------------------- *)
(** ** Doubles                                                                *)
(* ------------------------------------------------------------------------- *)

(** [a < b] on doubles. *)
Definition Qltb (a b : Q) : bool :=
  match (a ?= b)%Q with Lt => true | _ => false end.

(** [a <= b] on doubles. *)
Definition Qleb (a b : Q) : bool := Qle_bool a b.

(** C's [round]: to the nearest integer, halves away from zero. *)
Definition round (x : Q) : Z :=
  if Qltb x 0 then - Qfloor (- x + (1 # 2))%Q else Qfloor (x + (1 # 2))%Q.

(** The conversion [(int)d] of a double: truncation toward zero. *)
Definition trunc (x : Q) : Z :=
  if Qltb x 0 then - Qfloor (- x)%Q else Qfloor x.

(* ------------------------------------------------------------------------- *)
(** ** Chat Message                                                           *)
(* ------------------------------------------------------------------------- *)

Record ChatMessage : Type := mkChatMessage {
  m_time : Q;
  m_user : string;
  m_text : string
}.

(** [ChatMessage::operator < (ChatMessage const &other)] *)
Definition msg_lt (a b : ChatMessage) : bool := Qltb (m_time a) (m_time b).

(** [operator < (ChatMessage const &msg, double time)] *)
Definition msg_lt_time (msg : ChatMessage) (time : Q) : bool :=
  Qltb (m_time msg) time.

(** [operator < (double time, ChatMessage const &msg)] *)
Definition time_lt_msg (time : Q) (msg : ChatMessage) : bool :=
  Qltb time (m_time msg).

(** The store is sorted ascending by timestamp. *)
Definition time_le (a b : ChatMessage) : Prop := (m_time a <= m_time b)%Q.
Definition sorted_by_time (l : list ChatMessage) : Prop := Sorted time_le l.

(* ------------------------------------------------------------------------- *)
(** ** [std::lower_bound] and [std::upper_bound]                              *)
(* ------------------------------------------------------------------------- *)

Section BinarySearch.
Context {A : Type}.

(** The loop shared by the two algorithms: [first] is an index into [v],
    [len] the number of candidates left.  Each round halves [len]
    ([half = len >> 1], [middle = first + half]); [go_right] says whether the
    answer lies after [middle].  [fuel] bounds the number of rounds; [len]
    rounds always suffice. *)
Fixpoint bound_loop (go_right : A -> bool) (v : list A)
         (fuel first len : nat) {struct fuel} : nat :=
  match fuel with
  | O => first
  | S fuel' =>
      match len with
      | O => first
      | _ =>
          let half := Nat.div2 len in
          let middle := (first + half)%nat in
          match nth_error v middle with
          | Some x =>
              if go_right x
              then bound_loop go_right v fuel' (S middle) (len - half - 1)%nat
              else bound_loop go_right v fuel' first half
          | None => first
          end
      end
  end.

(** Search of the range of indices [first, last). *)
Definition bound_search (go_right : A -> bool) (v : list A)
           (first last : nat) : nat :=
  bound_loop go_right v (last - first) first (last - first).
End BinarySearch.

(** [std::lower_bound(first, last, val)]: advance while [*middle < val]. *)
Definition lower_bound (v : list ChatMessage) (first last : nat) (val : Q) : nat :=
  bound_search (fun m => msg_lt_time m val) v first last.

(** [std::upper_bound(first, last, val)]: advance unless [val < *middle]. *)
Definition upper_bound (v : list ChatMessage) (first last : nat) (val : Q) : nat :=
  bound_search (fun m => negb (time_lt_msg val m)) v first last.

(** The elements of [v] at the indices [first, last): the [std::span]. *)
Definition span {A : Type} (v : list A) (first last : nat) : list A :=
  firstn (last - first) (skipn first v).

(* ------------------------------------------------------------------------- *)
(** ** The drawing objects                                                    *)
(* ------------------------------------------------------------------------- *)

Definition PANGO_SCALE : Z := 1024.

(** [PANGO_PIXELS(d)]: Pango units to device pixels, rounded. *)
Definition PANGO_PIXELS (d : Z) : Z := Z.shiftr (d + 512) 10.

Definition rgb : Type := (Q * Q * Q)%type.
Definition rgba : Type := (Q * Q * Q * Q)%type.

(** The arguments of the [g_markup_printf_escaped] call of [drawMessage]: the
    user colour and the alpha as the integers printed with [%02x], the user
    name and the text. *)
Record Markup : Type := mkMarkup {
  mk_red : Z;
  mk_green : Z;
  mk_blue : Z;
  mk_alpha : Z;
  mk_user : string;
  mk_text : string
}.

(** [Pango::Layout]: wrapping width and height in Pango units, and the markup
    last set.  Font, alignment and wrap mode are constants of [drawInit]. *)
Record Layout : Type := mkLayout {
  ly_width : Z;
  ly_height : Z;
  ly_markup : option Markup
}.

(** What has been painted, in device coordinates. *)
Inductive DrawOp : Type :=
| FillRoundedRect (x y : Z) (w h r : Q) (source : rgba)
| ShowLayout (x y : Z) (layout : Layout) (source : rgba).

(** [Cairo::ImageSurface] of format ARGB32: its size and what was painted on
    it since it was last cleared, oldest first. *)
Record Surface : Type := mkSurface {
  sf_width : Z;
  sf_height : Z;
  sf_ops : list DrawOp
}.

(** [Cairo::Context]: the translation of the current matrix (the cursor) and
    the current source colour. *)
Record Context : Type := mkContext {
  cx_tx : Z;
  cx_ty : Z;
  cx_source : rgba
}.

(** The text and raster backends (Pango and Cairo), outside the repository:
    the size of a layout in Pango units, and the stride and the bytes of an
    image surface. *)
Class Backend : Type := {
  layout_get_size : Layout -> Z * Z;
  surface_get_stride : Surface -> Z;
  surface_get_data : Surface -> Z -> byte
}.

(* ------------------------------------------------------------------------- *)
(** ** Chat Message Renderer                                                  *)
(* ------------------------------------------------------------------------- *)

Record ChatMessageRenderer : Type := mkRenderer {
  m_messages : list ChatMessage;

  m_surface : option Surface;
  m_context : option Context;
  m_layout : option Layout;

  m_width : Z;
  m_height : Z;
  m_margin : Z;

  m_color_bg : rgba;
  m_color_user : rgb;
  m_color_text : rgb;

  m_fade_in_time : Q;
  m_hold_time : Q;
  m_fade_out_time : Q
}.

(** [ChatMessageRenderer::ChatMessageRenderer(messages = {})] *)
Definition newRenderer (messages : list ChatMessage) : ChatMessageRenderer :=
  mkRenderer messages None None None 640 360 10
             (1 # 2, 1 # 2, 1 # 2, 1 # 2)%Q (628 # 1000, 0, 0)%Q (0, 0, 0)%Q
             1%Q 15%Q 1%Q.

(** Field updates. *)
Definition with_messages (r : ChatMessageRenderer) (ms : list ChatMessage) :=
  mkRenderer ms (m_surface r) (m_context r) (m_layout r)
             (m_width r) (m_height r) (m_margin r)
             (m_color_bg r) (m_color_user r) (m_color_text r)
             (m_fade_in_time r) (m_hold_time r) (m_fade_out_time r).

Definition with_objects (r : ChatMessageRenderer)
           (s : option Surface) (c : option Context) (l : option Layout) :=
  mkRenderer (m_messages r) s c l
             (m_width r) (m_height r) (m_margin r)
             (m_color_bg r) (m_color_user r) (m_color_text r)
             (m_fade_in_time r) (m_hold_time r) (m_fade_out_time r).

Definition with_size (r : ChatMessageRenderer) (w h m : Z) :=
  mkRenderer (m_messages r) (m_surface r) (m_context r) (m_layout r)
             w h m
             (m_color_bg r) (m_color_user r) (m_color_text r)
             (m_fade_in_time r) (m_hold_time r) (m_fade_out_time r).

Definition with_colors (r : ChatMessageRenderer) (bg : rgba) (user text : rgb) :=
  mkRenderer (m_messages r) (m_surface r) (m_context r) (m_layout r)
             (m_width r) (m_height r) (m_margin r)
             bg user text
             (m_fade_in_time r) (m_hold_time r) (m_fade_out_time r).

Definition with_timing (r : ChatMessageRenderer) (fi ho fo : Q) :=
  mkRenderer (m_messages r) (m_surface r) (m_context r) (m_layout r)
             (m_width r) (m_height r) (m_margin r)
             (m_color_bg r) (m_color_user r) (m_color_text r)
             fi ho fo.

(** [setMessages] *)
Definition setMessages (messages : list ChatMessage) (r : ChatMessageRenderer) :=
  with_messages r messages.

(** [drawRelease]: drop the layout, the context and the surface. *)
Definition drawRelease (r : ChatMessageRenderer) : ChatMessageRenderer :=
  with_objects r None None None.

(** [setWidth], [setHeight], [setMargin] *)
Definition setWidth (width : Z) (r : ChatMessageRenderer) : ChatMessageRenderer :=
  if negb (m_width r =? width)
  then drawRelease (with_size r width (m_height r) (m_margin r))
  else r.

Definition setHeight (height : Z) (r : ChatMessageRenderer) : ChatMessageRenderer :=
  if negb (m_height r =? height)
  then drawRelease (with_size r (m_width r) height (m_margin r))
  else r.

Definition setMargin (margin : Z) (r : ChatMessageRenderer) : ChatMessageRenderer :=
  if negb (m_margin r =? margin)
  then drawRelease (with_size r (m_width r) (m_height r) margin)
  else r.

Definition getWidth (r : ChatMessageRenderer) : Z := m_width r.
Definition getHeight (r : ChatMessageRenderer) : Z := m_height r.

(** [setColorBackground], [setColorUser], [setColorText] *)
Definition setColorBackground (c : rgba) (r : ChatMessageRenderer) :=
  with_colors r c (m_color_user r) (m_color_text r).

Definition setColorUser (c : rgb) (r : ChatMessageRenderer) :=
  with_colors r (m_color_bg r) c (m_color_text r).

Definition setColorText (c : rgb) (r : ChatMessageRenderer) :=
  with_colors r (m_color_bg r) (m_color_user r) c.

(** [setFadeInTime], [setHoldTime], [setFadeOutTime] *)
Definition setFadeInTime (t : Q) (r : ChatMessageRenderer) :=
  with_timing r t (m_hold_time r) (m_fade_out_time r).

Definition setHoldTime (t : Q) (r : ChatMessageRenderer) :=
  with_timing r (m_fade_in_time r) t (m_fade_out_time r).

Definition setFadeOutTime (t : Q) (r : ChatMessageRenderer) :=
  with_timing r (m_fade_in_time r) (m_hold_time r) t.

(* ------------------------------------------------------------------------- *)
(** ** Drawing                                                                *)
(* ------------------------------------------------------------------------- *)

(** Sequencing of operations that fail on an empty pointer. *)
Definition bind {A B : Type} (x : option A) (k : A -> option B) : option B :=
  match x with
  | Some a => k a
  | None => None
  end.

Notation "x <- e ;; k" := (bind e (fun x => k))
  (at level 61, e at next level, right associativity).
Notation "' p <- e ;; k" := (bind e (fun p => k))
  (at level 61, p pattern, e at next level, right associativity).

(** [drawInit]: create the drawing objects when there is no surface, clear
    the surface otherwise. *)
Definition drawInit (r : ChatMessageRenderer) : option ChatMessageRenderer :=
  match m_surface r with
  | None =>
      Some (with_objects r
              (Some (mkSurface (m_width r) (m_height r) []))
              (Some (mkContext 0 0 (0, 0, 0, 1)%Q))
              (Some (mkLayout ((m_width r - 2 * m_margin r) * PANGO_SCALE)
                              ((m_height r - 2 * m_margin r) * PANGO_SCALE)
                              None)))
  | Some sf =>
      _ <- m_context r ;;
      Some (with_objects r
              (Some (mkSurface (sf_width sf) (sf_height sf) []))
              (m_context r) (m_layout r))
  end.

(** [m_context->set_source_rgba(...)] *)
Definition set_source_rgba (c : rgba) (r : ChatMessageRenderer)
  : option ChatMessageRenderer :=
  cx <- m_context r ;;
  Some (with_objects r (m_surface r)
          (Some (mkContext (cx_tx cx) (cx_ty cx) c)) (m_layout r)).

(** [m_context->translate(dx, dy)] *)
Definition translate (dx dy : Z) (r : ChatMessageRenderer)
  : option ChatMessageRenderer :=
  cx <- m_context r ;;
  Some (with_objects r (m_surface r)
          (Some (mkContext (cx_tx cx + dx) (cx_ty cx + dy) (cx_source cx)))
          (m_layout r)).

(** [m_context->set_identity_matrix()] *)
Definition set_identity_matrix (r : ChatMessageRenderer)
  : option ChatMessageRenderer :=
  cx <- m_context r ;;
  Some (with_objects r (m_surface r)
          (Some (mkContext 0 0 (cx_source cx))) (m_layout r)).

(** Painting: the context appends to the surface it was created for. *)
Definition paint (op : Context -> DrawOp) (r : ChatMessageRenderer)
  : option ChatMessageRenderer :=
  cx <- m_context r ;;
  sf <- m_surface r ;;
  Some (with_objects r
          (Some (mkSurface (sf_width sf) (sf_height sf) (sf_ops sf ++ [op cx])))
          (m_context r) (m_layout r)).

(** [drawBackground]: the rounded rectangle behind a message, at the cursor,
    in the background colour with its alpha scaled by [alpha]. *)
Definition drawBackground (text_width text_height : Z) (alpha : Q)
           (r : ChatMessageRenderer) : option ChatMessageRenderer :=
  let rad := ((3 # 2) * inject_Z (m_margin r))%Q in
  let w := inject_Z (text_width + 2 * m_margin r) in
  let h := inject_Z (text_height + 2 * m_margin r) in
  let '(bg0, bg1, bg2, bg3) := m_color_bg r in
  r1 <- set_source_rgba (bg0, bg1, bg2, bg3 * alpha)%Q r ;;
  paint (fun cx => FillRoundedRect (cx_tx cx) (cx_ty cx) w h rad (cx_source cx)) r1.

(** The alpha and the progress of a message at [time]: the head of
    [drawMessage]. *)
Definition fade (r : ChatMessageRenderer) (msg : ChatMessage) (time : Q) : Q * Q :=
  let t_hold := (m_time msg + m_fade_in_time r)%Q in
  let t_fout := (m_time msg + m_fade_in_time r + m_hold_time r)%Q in
  if Qltb time t_hold then
    let alpha := ((time - m_time msg) / m_fade_in_time r)%Q in
    (alpha, alpha)
  else if Qltb t_fout time then
    ((1 - (time - t_fout) / m_fade_out_time r)%Q, 1%Q)
  else
    (1%Q, 1%Q).

(** The markup of a message drawn with [alpha]. *)
Definition markup_of (r : ChatMessageRenderer) (msg : ChatMessage) (alpha : Q)
  : Markup :=
  let '(u0, u1, u2) := m_color_user r in
  mkMarkup (trunc (u0 * 255)) (trunc (u1 * 255)) (trunc (u2 * 255))
           (trunc (alpha * 255)) (m_user msg) (m_text msg).

Section Rendering.
Context {B : Backend}.

(** [drawMessage]: returns the renderer, [height] and [progress]. *)
Definition drawMessage (msg : ChatMessage) (time : Q) (r : ChatMessageRenderer)
  : option (ChatMessageRenderer * Z * Q) :=
  let '(alpha, progress) := fade r msg time in
  if Qleb alpha (1 / 255) then
    Some (r, 0, progress)
  else
    ly <- m_layout r ;;
    let ly' := mkLayout (ly_width ly) (ly_height ly)
                        (Some (markup_of r msg alpha)) in
    let r1 := with_objects r (m_surface r) (m_context r) (Some ly') in
    let text_width := PANGO_PIXELS (fst (layout_get_size ly')) in
    let text_height := PANGO_PIXELS (snd (layout_get_size ly')) in
    r2 <- drawBackground text_width text_height alpha r1 ;;
    let '(c0, c1, c2) := m_color_text r2 in
    r3 <- set_source_rgba (c0, c1, c2, alpha) r2 ;;
    r4 <- paint (fun cx => ShowLayout (cx_tx cx + m_margin r3)
                                      (cx_ty cx + m_margin r3)
                                      ly' (cx_source cx)) r3 ;;
    Some (r4, text_height + 3 * m_margin r4, progress).

(** The [for] loop of [render] over the active messages; [th] is the
    running total. *)
Fixpoint render_loop (active : list ChatMessage) (time : Q)
         (r : ChatMessageRenderer) (th : Q) : option (ChatMessageRenderer * Q) :=
  match active with
  | [] => Some (r, th)
  | msg :: rest =>
      '(r1, h, p) <- drawMessage msg time r ;;
      r2 <- translate 0 h r1 ;;
      render_loop rest time r2 (th + p * inject_Z h)%Q
  end.
End Rendering.

(* ------------------------------------------------------------------------- *)
(** ** The active range of [ChatMessageRenderer::render]                      *)
(* ------------------------------------------------------------------------- *)

Definition time_lo (r : ChatMessageRenderer) (time : Q) : Q :=
  (time - (m_fade_in_time r + m_hold_time r + m_fade_out_time r))%Q.

Definition time_hi (time : Q) : Q := time.

(** [first], [last] and the span between them, as [render] computes them. *)
Definition active_first (r : ChatMessageRenderer) (time : Q) : nat :=
  lower_bound (m_messages r) 0 (length (m_messages r)) (time_lo r time).

Definition active_last (r : ChatMessageRenderer) (time : Q) : nat :=
  upper_bound (m_messages r) (active_first r time) (length (m_messages r))
              (time_hi time).

Definition active_messages (r : ChatMessageRenderer) (time : Q)
  : list ChatMessage :=
  span (m_messages r) (active_first r time) (active_last r time).

(** [render]: the new renderer and the returned height. *)
Definition render {B : Backend} (time : Q) (r : ChatMessageRenderer)
  : option (ChatMessageRenderer * Z) :=
  match active_messages r time with
  | [] => Some (r, 0)
  | active =>
      r1 <- drawInit r ;;
      r2 <- set_identity_matrix r1 ;;
      r3 <- translate (m_margin r2) 0 r2 ;;
      '(r4, th) <- render_loop active time r3 0%Q ;;
      Some (r4, round th)
  end.

(** [getStride], [getData] *)
Definition getStride {B : Backend} (r : ChatMessageRenderer) : option Z :=
  sf <- m_surface r ;; Some (surface_get_stride sf).

Definition getData {B : Backend} (r : ChatMessageRenderer) : option (Z -> byte) :=
  sf <- m_surface r ;; Some (surface_get_data sf).

(* ------------------------------------------------------------------------- *)
(** ** Loading the messages                                                   *)
(* ------------------------------------------------------------------------- *)

(** A node of a [pugi::xml_document]. *)
#[warnings="-register-all"]
Inductive xml_node : Type :=
| XmlNode (name : string) (attributes : list (string * string))
          (children : list xml_node).

Definition node_name (n : xml_node) : string :=
  match n with XmlNode name _ _ => name end.

Definition node_attributes (n : xml_node) : list (string * string) :=
  match n with XmlNode _ attrs _ => attrs end.

Definition node_children (n : xml_node) : list xml_node :=
  match n with XmlNode _ _ cs => cs end.

(** [xml_node::child(name)]: the first child of that name, or the null node. *)
Definition child (nodes : list xml_node) (name : string) : option xml_node :=
  find (fun n => String.eqb (node_name n) name) nodes.

(** [xml_node::children()]; the null node has none. *)
Definition children (n : option xml_node) : list xml_node :=
  match n with
  | Some n => node_children n
  | None => []
  end.

(** [xml_node::attribute(name)]: the first attribute of that name, or the
    null attribute. *)
Definition attribute (n : xml_node) (name : string) : option string :=
  option_map snd (find (fun a => String.eqb (fst a) name) (node_attributes n)).

(** [xml_attribute::value()]: the empty string for the null attribute. *)
Definition value (a : option string) : string :=
  match a with
  | Some s => s
  | None => EmptyString
  end.

(** The outcome of [xml_document::load_file]. *)
Inductive xml_parse_status : Type :=
| status_ok
| status_file_not_found
| status_io_error
| status_unrecognized_tag
| status_bad_attribute
| status_end_element_mismatch
| status_no_document_element.

(** The XML library (pugixml) and the C library, outside the repository:
    [load_file] gives the status and the children of the document node that
    the file leaves behind; [strtod] reads a number. *)
Class XmlLib : Type := {
  load_file : string -> xml_parse_status * list xml_node;
  strtod : string -> Q
}.

(** [xml_attribute::as_double()]: zero for the null attribute. *)
Definition as_double {X : XmlLib} (a : option string) : Q :=
  match a with
  | Some s => strtod s
  | None => 0%Q
  end.

(** [std::sort] with [ChatMessage::operator <]: an insertion sort stands for
    it.  The order [std::sort] leaves among equal timestamps is unspecified. *)
Fixpoint insert (x : ChatMessage) (l : list ChatMessage) : list ChatMessage :=
  match l with
  | [] => [x]
  | y :: l' => if msg_lt x y then x :: y :: l' else y :: insert x l'
  end.

Fixpoint sort (l : list ChatMessage) : list ChatMessage :=
  match l with
  | [] => []
  | x :: l' => insert x (sort l')
  end.

(** [ChatMessage::loadFromFile]: the status of [load_file] is dropped. *)
Definition loadFromFile {X : XmlLib} (filename : string) : list ChatMessage :=
  let '(_, doc) := load_file filename in
  let rv :=
    map (fun element =>
           mkChatMessage (as_double (attribute element "in"))
                         (value (attribute element "name"))
                         (value (attribute element "message")))
        (children (child doc "popcorn")) in
  sort rv.

(* ------------------------------------------------------------------------- *)
(** ** The plugin instance                                                    *)
(* ------------------------------------------------------------------------- *)

Record InstanceData : Type := mkInstance {
  framerate : Q;
  cmr : ChatMessageRenderer
}.

(** [doReloadMessages]: pugixml raises no exception on a file it cannot
    read, so the [catch] branch is never taken on that account. *)
Definition doReloadMessages {X : XmlLib} (data_file : string) (priv : InstanceData)
  : InstanceData :=
  mkInstance (framerate priv) (setMessages (loadFromFile data_file) (cmr priv)).

(** [OfxRectI] *)
Record OfxRectI : Type := mkRect {
  x1 : Z;
  y1 : Z;
  x2 : Z;
  y2 : Z
}.

(** [clipRectI(r1, r2)]: [r1] becomes its intersection with [r2]. *)
Definition clipRectI (r1 r2 : OfxRectI) : OfxRectI :=
  mkRect (Z.max (x1 r1) (x1 r2)) (Z.max (y1 r1) (y1 r2))
         (Z.min (x2 r1) (x2 r2)) (Z.min (y2 r1) (y2 r2)).

(** [for (int i = lo; i < hi; i++) body]. *)
Fixpoint for_count {S : Type} (n : nat) (i : Z) (body : Z -> S -> S) (s : S) : S :=
  match n with
  | O => s
  | Datatypes.S n' => for_count n' (i + 1) body (body i s)
  end.

Definition for_range {S : Type} (lo hi : Z) (body : Z -> S -> S) (s : S) : S :=
  for_count (Z.to_nat (hi - lo)) lo body s.

(** The destination buffer, with the record of what was stored into it: a
    pair [(o, i)] for every [out_data[o] = in_data[i]], oldest first, the
    offsets counted from the two base pointers. *)
Record Target : Type := mkTarget {
  tg_bytes : Z -> byte;
  tg_stores : list (Z * Z)
}.

Definition poke (m : Z -> byte) (o : Z) (b : byte) : Z -> byte :=
  fun a => if a =? o then b else m a.

(** [out_data[o] = in_data[i]] *)
Definition assign (in_bytes : Z -> byte) (o i : Z) (t : Target) : Target :=
  mkTarget (poke (tg_bytes t) o (in_bytes i)) (tg_stores t ++ [(o, i)]).

(** [memset(&out_data[ofs], 0x00, n)]; nothing is modelled for a negative
    [n]. *)
Definition memset0 (ofs n : Z) (m : Z -> byte) : Z -> byte :=
  for_range 0 n (fun k m => poke m (ofs + k) x00) m.

(** The clearing of the render target in [effectRender]. *)
Definition clear_target (rRender : OfxRectI) (out_stride : Z) (m : Z -> byte)
  : Z -> byte :=
  for_range (y1 rRender) (y2 rRender)
    (fun y m =>
       let ofs := y * out_stride + 4 * x1 rRender in
       memset0 ofs ((x2 rRender - x1 rRender) * 4) m)
    m.

(** State of the copy loops: the two moving pointers and the two offsets. *)
Record Cursor : Type := mkCursor {
  in_data : Z;
  out_data : Z;
  in_ofs : Z;
  out_ofs : Z;
  target : Target
}.

(** The body of the loop over [x]. *)
Definition copy_pixel (in_bytes : Z -> byte) (c : Cursor) : Cursor :=
  let src k := in_data c + (in_ofs c + k) in
  let dst k := out_data c + (out_ofs c + k) in
  let t0 := assign in_bytes (dst 0) (src 2) (target c) in
  let t1 := assign in_bytes (dst 1) (src 1) t0 in
  let t2 := assign in_bytes (dst 2) (src 0) t1 in
  let t3 := assign in_bytes (dst 3) (src 3) t2 in
  mkCursor (in_data c) (out_data c) (in_ofs c + 4) (out_ofs c + 4) t3.

(** The body of the loop over [y]. *)
Definition copy_row (in_bytes : Z -> byte) (in_stride out_stride : Z)
           (rRender : OfxRectI) (c : Cursor) : Cursor :=
  let c0 := mkCursor (in_data c) (out_data c) 0 0 (target c) in
  let c1 := for_range (x1 rRender) (x2 rRender)
                      (fun _ => copy_pixel in_bytes) c0 in
  mkCursor (in_data c1 - in_stride) (out_data c1 + out_stride)
           (in_ofs c1) (out_ofs c1) (target c1).

(** The block [if (h > 0) { ... }] of [effectRender]: the copy of the
    rendered rows into the render target. *)
Definition copy_result {B : Backend} (h : Z) (r : ChatMessageRenderer)
           (rRender : OfxRectI) (out_stride : Z) (t : Target) : option Target :=
  if 0 <? h then
    let rIn := mkRect 0 0 (getWidth r) h in
    let rRender := clipRectI rRender rIn in
    in_stride <- getStride r ;;
    in_bytes <- getData r ;;
    let c0 := mkCursor ((h - y1 rRender - 1) * in_stride + x1 rRender * 4)
                       (y1 rRender * out_stride + x1 rRender * 4)
                       0 0 t in
    let c1 := for_range (y1 rRender) (y2 rRender)
                        (fun _ => copy_row in_bytes in_stride out_stride rRender)
                        c0 in
    Some (target c1)
  else
    Some t.

(** What the host hands to the render action. *)
Record RenderRequest : Type := mkRequest {
  rq_time : Q;
  rq_window : OfxRectI;
  rq_depth_is_byte : bool;
  rq_components_is_rgba : bool;
  rq_bounds : OfxRectI;
  rq_rowbytes : Z;
  rq_data : Z -> byte
}.

(** [effectRender], from the checks of the output image on.  [None] is a
    failed dereference; [Some (priv, None)] is the [NoImageEx] path, which
    leaves the image alone. *)
Definition effectRender {B : Backend} (rq : RenderRequest) (priv : InstanceData)
  : option (InstanceData * option Target) :=
  if negb (rq_depth_is_byte rq) then Some (priv, None)
  else if negb (rq_components_is_rgba rq) then Some (priv, None)
  else
    let rRender := clipRectI (rq_window rq) (rq_bounds rq) in
    let out_stride := rq_rowbytes rq in
    let cleared := clear_target rRender out_stride (rq_data rq) in
    '(r, h) <- render (rq_time rq / framerate priv)%Q (cmr priv) ;;
    t <- copy_result h r rRender out_stride (mkTarget cleared []) ;;
    Some (mkInstance (framerate priv) r, Some t).

(* ------------------------------------------------------------------------- *)
(** ** The specification's own words                                          *)
(* ------------------------------------------------------------------------- *)

(** The brute-force scan of the store: the entries whose timestamp lies in
    the closed interval [[time - window, time]]. *)
Definition in_window (lo hi : Q) (m : ChatMessage) : bool :=
  Qleb lo (m_time m) && Qleb (m_time m) hi.

Definition linear_scan (msgs : list ChatMessage) (time window : Q)
  : list ChatMessage :=
  filter (in_window (time - window)%Q time) msgs.


(** The height the text backend measures for a message drawn with [alpha]
    in a layout of the box of [ly]. *)
Definition measured_height {B : Backend} (r : ChatMessageRenderer) (ly : Layout)
           (msg : ChatMessage) (alpha : Q) : Z :=
  PANGO_PIXELS
    (snd (layout_get_size
            (mkLayout (ly_width ly) (ly_height ly) (Some (markup_of r msg alpha))))).

(** The vertical space of a message: nothing when its alpha is at most
    1/255, the measured height and three margins otherwise. *)
Definition spec_height {B : Backend} (r : ChatMessageRenderer) (ly : Layout)
           (time : Q) (msg : ChatMessage) : Z :=
  let alpha := fst (fade r msg time) in
  if Qleb alpha (1 / 255) then 0
  else measured_height r ly msg alpha + 3 * m_margin r.

(** The sum of [progress * height] over the messages, and the sum of the
    heights. *)
Fixpoint spec_total {B : Backend} (r : ChatMessageRenderer) (ly : Layout)
         (time : Q) (msgs : list ChatMessage) : Q :=
  match msgs with
  | [] => 0%Q
  | msg :: rest =>
      (snd (fade r msg time) * inject_Z (spec_height r ly time msg)
       + spec_total r ly time rest)%Q
  end.

Fixpoint spec_advance {B : Backend} (r : ChatMessageRenderer) (ly : Layout)
         (time : Q) (msgs : list ChatMessage) : Z :=
  match msgs with
  | [] => 0
  | msg :: rest => spec_height r ly time msg + spec_advance r ly time rest
  end.

(** The layout that [render] draws with: the one [drawInit] leaves. *)
Definition render_layout (r : ChatMessageRenderer) : option Layout :=
  r1 <- drawInit r ;; m_layout r1.

(** The drawing objects are all present or all absent. *)
Definition objects_consistent (r : ChatMessageRenderer) : bool :=
  match m_surface r, m_context r, m_layout r with
  | None, None, None => true
  | Some _, Some _, Some _ => true
  | _, _, _ => false
  end.

(** The three drawing objects of a renderer. *)
Definition objects (r : ChatMessageRenderer)
  : option Surface * option Context * option Layout :=
  (m_surface r, m_context r, m_layout r).

(** What [drawMessage] paints for a message when the cursor is that of [cx]
    and the layout has the box of [ly]. *)
Definition painted {B : Backend} (r : ChatMessageRenderer) (ly : Layout)
           (cx : Context) (msg : ChatMessage) (time : Q) : list DrawOp :=
  let alpha := fst (fade r msg time) in
  if Qleb alpha (1 / 255) then []
  else
    let ly' := mkLayout (ly_width ly) (ly_height ly)
                        (Some (markup_of r msg alpha)) in
    let text_width := PANGO_PIXELS (fst (layout_get_size ly')) in
    let text_height := PANGO_PIXELS (snd (layout_get_size ly')) in
    let '(bg0, bg1, bg2, bg3) := m_color_bg r in
    let '(c0, c1, c2) := m_color_text r in
    [ FillRoundedRect (cx_tx cx) (cx_ty cx)
        (inject_Z (text_width + 2 * m_margin r))
        (inject_Z (text_height + 2 * m_margin r))
        ((3 # 2) * inject_Z (m_margin r))%Q
        (bg0, bg1, bg2, bg3 * alpha)%Q;
      ShowLayout (cx_tx cx + m_margin r) (cx_ty cx + m_margin r) ly'
        (c0, c1, c2, alpha) ].

(** What the loop of [render] paints for the messages, the cursor starting
    at [(tx, ty)] and moving down by the height of each message. *)
Fixpoint painted_all {B : Backend} (r : ChatMessageRenderer) (ly : Layout)
         (tx ty : Z) (time : Q) (msgs : list ChatMessage) : list DrawOp :=
  match msgs with
  | [] => []
  | msg :: rest =>
      painted r ly (mkContext tx ty (0, 0, 0, 1)%Q) msg time
      ++ painted_all r ly tx (ty + spec_height r ly time msg) time rest
  end.

(** The alpha of the background colour, [m_color_bg[3]]. *)
Definition bg_alpha (r : ChatMessageRenderer) : Q :=
  let '(_, _, _, a) := m_color_bg r in a.

(** The alpha a painted item was tinted with. *)
Definition tint_alpha (op : DrawOp) : Q :=
  match op with
  | FillRoundedRect _ _ _ _ _ (_, _, _, a) => a
  | ShowLayout _ _ _ (_, _, _, a) => a
  end.

Definition tint_in_range (op : DrawOp) : Prop :=
  (0 <= tint_alpha op /\ tint_alpha op <= 1)%Q.

(** The channel of the source that lands in channel [c] of the destination. *)
Definition swapped (c : Z) : Z :=
  if c =? 0 then 2 else if c =? 2 then 0 else c.

(** The stores of a copy-out, as the specification describes them: for the
    rows [y] and the columns [x] of the rectangle, byte [c] of the pixel at
    row [y] of the destination comes from byte [swapped c] of the pixel at
    row [h - y - 1] of the source. *)
Definition spec_store (h in_stride out_stride y x c : Z) : Z * Z :=
  (y * out_stride + 4 * x + c, (h - y - 1) * in_stride + 4 * x + swapped c).

(** The four stores of one pixel, read at [ib] and written at [ob]. *)
Definition pixel_stores (ib ob : Z) : list (Z * Z) :=
  map (fun c => (ob + c, ib + swapped c)) [0; 1; 2; 3].

(** A target after the stores of a list have been performed in order. *)
Definition extend (in_bytes : Z -> byte) (t : Target) (stores : list (Z * Z))
  : Target :=
  fold_left (fun t s => assign in_bytes (fst s) (snd s) t) stores t.

(** The integers [lo], [lo + 1], ..., [hi - 1]. *)
Definition zrange (lo hi : Z) : list Z :=
  map (fun k => lo + Z.of_nat k) (seq 0 (Z.to_nat (hi - lo))).

Definition spec_stores (h in_stride out_stride : Z) (rc : OfxRectI)
  : list (Z * Z) :=
  flat_map (fun y =>
    flat_map (fun x =>
      map (spec_store h in_stride out_stride y x) [0; 1; 2; 3])
      (zrange (x1 rc) (x2 rc)))
    (zrange (y1 rc) (y2 rc)).

(** [go_right] holds on a prefix of the indices [lo, hi) of [v]: what a
    binary search asks of its range. *)
Definition partitioned {A : Type} (go_right : A -> bool) (v : list A)
           (lo hi : nat) : Prop :=
  forall i j x y,
    (lo <= i)%nat -> (i <= j)%nat -> (j < hi)%nat ->
    nth_error v i = Some x -> nth_error v j = Some y ->
    go_right y = true -> go_right x = true.

(* ------------------------------------------------------------------------- *)
(** ** Reconfiguration and the instance actions                               *)
(* ------------------------------------------------------------------------- *)

(** The values of the parameters of the instance, as [paramGetValue] hands
    them over. *)
Record HostParams : Type := mkParams {
  dataFile : string;
  renderSize : Q * Q;
  fontSize : Q;
  bgColor : rgba;
  userColor : rgb;
  textColor : rgb;
  fadeInTime : Q;
  holdTime : Q;
  fadeOutTime : Q
}.

(** [doReconfigure]: the setters in the order of the source.  The font
    parameters are read and dropped; [setMargin] is not called. *)
Definition doReconfigure (p : HostParams) (priv : InstanceData) : InstanceData :=
  let c := cmr priv in
  let c := setWidth (round (fst (renderSize p))) c in
  let c := setHeight (round (snd (renderSize p))) c in
  let c := setColorBackground (bgColor p) c in
  let c := setColorUser (userColor p) c in
  let c := setColorText (textColor p) c in
  let c := setFadeInTime (fadeInTime p) c in
  let c := setHoldTime (holdTime p) c in
  let c := setFadeOutTime (fadeOutTime p) c in
  mkInstance (framerate priv) c.

Inductive OfxStatus : Type :=
| kOfxStatOK
| kOfxStatFailed
| kOfxStatReplyDefault
| kOfxStatErrMissingHostFeature.

(** Constants of the OFX headers. *)
Definition kOfxChangeUserEdited : string := "OfxChangeUserEdited".
Definition kOfxTypeParameter : string := "OfxTypeParameter".

(** [InstanceData] with its [needReconfig] flag. *)
Record Instance : Type := mkInst {
  needReconfig : bool;
  priv_data : InstanceData
}.


(** The parameters whose change is applied at the end of the edit. *)
Definition is_dynamic_param (name : string) : bool :=
  String.eqb name "renderSize"
  || String.eqb name "fontFamily"
  || String.eqb name "fontSize"
  || String.eqb name "bgColor"
  || String.eqb name "userColor"
  || String.eqb name "textColor"
  || String.eqb name "fadeInTime"
  || String.eqb name "holdTime"
  || String.eqb name "fadeOutTime".

(** [effectInstanceChanged] *)
Definition effectInstanceChanged {X : XmlLib} (p : HostParams)
           (changeReason typeChanged objChanged : string) (i : Instance)
  : Instance * OfxStatus :=
  if negb (String.eqb changeReason kOfxChangeUserEdited) then
    (i, kOfxStatReplyDefault)
  else
    let isParam := String.eqb typeChanged kOfxTypeParameter in
    if isParam && String.eqb objChanged "dataFile" then
      (mkInst (needReconfig i) (doReloadMessages (dataFile p) (priv_data i)),
       kOfxStatOK)
    else if isParam && is_dynamic_param objChanged then
      (mkInst true (priv_data i), kOfxStatOK)
    else
      (i, kOfxStatReplyDefault).

(** [effectEndInstanceChanged] *)
Definition effectEndInstanceChanged (p : HostParams) (i : Instance)
  : Instance * OfxStatus :=
  if needReconfig i then
    (mkInst false (doReconfigure p (priv_data i)), kOfxStatOK)
  else
    (i, kOfxStatReplyDefault).




(** The surface and the layout, when they exist, have the size that the
    current width, height and margin ask for. *)
Definition objects_fit (r : ChatMessageRenderer) : Prop :=
  (forall sf, m_surface r = Some sf ->
              sf_width sf = m_width r /\ sf_height sf = m_height r)
  /\ (forall ly, m_layout r = Some ly ->
                 ly_width ly = (m_width r - 2 * m_margin r) * PANGO_SCALE
                 /\ ly_height ly = (m_height r - 2 * m_margin r) * PANGO_SCALE).

(** The state that the operations of the renderer keep. *)
Definition well_formed (r : ChatMessageRenderer) : Prop :=
  objects_consistent r = true /\ objects_fit r.


(** The pixel [(x, y)] lies in the rectangle. *)
Definition in_rect (r : OfxRectI) (x y : Z) : Prop :=
  x1 r <= x < x2 r /\ y1 r <= y < y2 r.

(** The box of the layout that [drawInit] creates for the current size. *)
Definition fresh_layout (r : ChatMessageRenderer) : Layout :=
  mkLayout ((m_width r - 2 * m_margin r) * PANGO_SCALE)
           ((m_height r - 2 * m_margin r) * PANGO_SCALE) None.



(** What [drawMessage] leaves on the surface, read as a stack of bubbles: a
    filled rectangle at [(m, y)] followed by its text at [(m + m, y + m)], the
    next bubble starting a margin below the rectangle. *)
Fixpoint well_stacked (m y : Z) (ops : list DrawOp) : Prop :=
  match ops with
  | [] => True
  | FillRoundedRect bx by_ w h _ _ :: ShowLayout tx ty _ _ :: rest =>
      bx = m /\ by_ = y /\ tx = bx + m /\ ty = by_ + m
      /\ exists y', (inject_Z y' == inject_Z by_ + h + inject_Z m)%Q
                    /\ well_stacked m y' rest
  | _ => False
  end.

(* ------------------------------------------------------------------------- *)
(** ** Loading and unloading the plugin                                       *)
(* ------------------------------------------------------------------------- *)

(** A suite is known by what [fetchSuite] returned for it; the thread suite
    is the host's or the plugin's own [cThreadLocal]. *)
Inductive ThreadSuite : Type :=
| HostThreads (suite : Z)
| cThreadLocal.

(** [OfxHost]: what [fetchSuite] answers for a name and a version; [None] is
    the null pointer. *)
Definition OfxHost : Type := string -> Z -> option Z.

Definition kOfxImageEffectSuite : string := "OfxImageEffectSuite".
Definition kOfxPropertySuite : string := "OfxPropertySuite".
Definition kOfxParameterSuite : string := "OfxParameterSuite".
Definition kOfxMultiThreadSuite : string := "OfxMultiThreadSuite".

(** The global pointers. *)
Record Globals : Type := mkGlobals {
  gHost : option OfxHost;
  gEffectHost : option Z;
  gPropHost : option Z;
  gParamHost : option Z;
  gThreadHost : option ThreadSuite
}.

(** [ofxSetHost] *)
Definition ofxSetHost (hostStruct : option OfxHost) (g : Globals) : Globals :=
  mkGlobals hostStruct (gEffectHost g) (gPropHost g) (gParamHost g) (gThreadHost g).

Definition is_null {A : Type} (p : option A) : bool :=
  match p with Some _ => false | None => true end.

(** [effectLoad] *)
Definition effectLoad (g : Globals) : Globals * OfxStatus :=
  match gHost g with
  | None => (g, kOfxStatErrMissingHostFeature)
  | Some host =>
      let e := host kOfxImageEffectSuite 1 in
      let pr := host kOfxPropertySuite 1 in
      let pa := host kOfxParameterSuite 1 in
      let th := option_map HostThreads (host kOfxMultiThreadSuite 1) in
      let g1 := mkGlobals (gHost g) e pr pa th in
      if is_null e || is_null pr || is_null pa then
        (g1, kOfxStatErrMissingHostFeature)
      else
        (mkGlobals (gHost g) e pr pa (Some cThreadLocal), kOfxStatOK)
  end.

(** [effectUnload] *)
Definition effectUnload (g : Globals) : Globals * OfxStatus :=
  (mkGlobals (gHost g) None None None (gThreadHost g), kOfxStatOK).

(* ------------------------------------------------------------------------- *)
(** ** Sample data                                                            *)
(* ------------------------------------------------------------------------- *)

(** A backend whose every layout measures 100 by 19 pixels, and whose
    surfaces have four bytes per pixel and no padding. *)
Definition sample_backend : Backend := {|
  layout_get_size := fun _ => (100 * PANGO_SCALE, 19 * PANGO_SCALE);
  surface_get_stride := fun sf => 4 * sf_width sf;
  surface_get_data := fun _ _ => x2a
|}.

Definition msg_a : ChatMessage := mkChatMessage 0 "a" "hi".
Definition msg_b : ChatMessage := mkChatMessage 5 "b" "yo".

(** The renderer as constructed, holding the two messages. *)
Definition sample_renderer : ChatMessageRenderer := newRenderer [msg_a; msg_b].

(** The same renderer once [drawInit] has created its drawing objects. *)
Definition drawn_renderer : ChatMessageRenderer :=
  with_objects sample_renderer
    (Some (mkSurface 640 360 []))
    (Some (mkContext 0 0 (0, 0, 0, 1)%Q))
    (Some (mkLayout ((640 - 2 * 10) * PANGO_SCALE)
                    ((360 - 2 * 10) * PANGO_SCALE) None)).

(** The sample renderer with a background colour whose alpha is 2. *)
Definition overbright_renderer : ChatMessageRenderer :=
  setColorBackground (1 # 2, 1 # 2, 1 # 2, 2)%Q sample_renderer.

(** Eight messages, one a second, all of them held at time 9. *)
Definition crowd : list ChatMessage :=
  map (fun k => mkChatMessage (inject_Z k) "user" "text") [1; 2; 3; 4; 5; 6; 7; 8].

Definition crowded_renderer : ChatMessageRenderer := newRenderer crowd.

(** A destination buffer of zeroes into which nothing has been stored. *)
Definition blank_target : Target := mkTarget (fun _ => x00) [].

(** The whole frame of the default size, and a window to the right of it. *)
Definition full_frame : OfxRectI := mkRect 0 0 640 360.
Definition window_beside : OfxRectI := mkRect 700 0 800 360.

(** Reading of an unsigned decimal integer, for the sample files. *)
Definition digit_of (c : Ascii.ascii) : Z := Z.of_nat (Ascii.nat_of_ascii c) - 48.

Fixpoint read_digits (s : string) (acc : Z) : Z :=
  match s with
  | EmptyString => acc
  | String c s' =>
      if (0 <=? digit_of c) && (digit_of c <=? 9)
      then read_digits s' (10 * acc + digit_of c)
      else acc
  end.

(** The log [<popcorn><chattimeline in="7" .../><chattimeline in="3" .../>]
    cut short before [</popcorn>]: pugixml reports
    [status_end_element_mismatch] and keeps the nodes read so far. *)
Definition attr (name value : string) : string * string := (name, value).

Definition truncated_log : list xml_node :=
  [ XmlNode "popcorn" []
      [ XmlNode "chattimeline"
          [attr "in" "7"; attr "name" "b"; attr "message" "yo"] [];
        XmlNode "chattimeline"
          [attr "in" "3"; attr "name" "a"; attr "message" "hi"] [] ] ].

(** A file system with that one file. *)
Definition sample_xml : XmlLib := {|
  load_file := fun filename =>
    if String.eqb filename "truncated.xml"
    then (status_end_element_mismatch, truncated_log)
    else (status_file_not_found, []);
  strtod := fun s => inject_Z (read_digits s 0)
|}.

(* ------------------------------------------------------------------------- *)
(** * Properties                                                              *)
(* ------------------------------------------------------------------------- *)

(** ** Comparisons of doubles *)

Lemma Qltb_lt (a b : Q) : Qltb a b = true <-> (a < b)%Q.
Proof.
  unfold Qltb. rewrite Qlt_alt. destruct (a ?= b)%Q; split; congruence.
Qed.

Lemma Qltb_ge (a b : Q) : Qltb a b = false <-> (b <= a)%Q.
Proof.
  split; intro H.
  - apply Qnot_lt_le. intro L. apply Qltb_lt in L. congruence.
  - destruct (Qltb a b) eqn:E; trivial.
    apply Qltb_lt in E. exfalso. exact (Qlt_not_le _ _ E H).
Qed.

Lemma Qleb_le (a b : Q) : Qleb a b = true <-> (a <= b)%Q.
Proof. apply Qle_bool_iff. Qed.

Lemma Qleb_gt (a b : Q) : Qleb a b = false <-> (b < a)%Q.
Proof.
  split; intro H.
  - apply Qnot_le_lt. intro L. apply Qleb_le in L. congruence.
  - destruct (Qleb a b) eqn:E; trivial.
    apply Qleb_le in E. exfalso. exact (Qlt_not_le _ _ H E).
Qed.


(** ** The binary searches *)

Section BoundLoop.
Context {A : Type} (go_right : A -> bool) (v : list A).

Lemma bound_loop_point (fuel : nat) :
  forall first len,
    (len <= fuel)%nat ->
    (first + len <= length v)%nat ->
    partitioned go_right v first (first + len) ->
    let p := bound_loop go_right v fuel first len in
    (first <= p <= first + len)%nat
    /\ (forall i x, (first <= i < p)%nat ->
                    nth_error v i = Some x -> go_right x = true)
    /\ (forall i x, (p <= i < first + len)%nat ->
                    nth_error v i = Some x -> go_right x = false).
Proof.
  induction fuel as [|fuel IH]; intros first len Hfuel Hlen Hpart; simpl.
  - repeat split; try lia; intros; lia.
  - destruct len as [|len'].
    + repeat split; try lia; intros; lia.
    + set (len := S len') in *.
      set (half := Nat.div2 len).
      assert (Hhalf : (half <= len')%nat) by apply Nat.le_div2.
      destruct (nth_error v (first + half)) as [xm|] eqn:Em.
      2:{ apply nth_error_None in Em. lia. }
      destruct (go_right xm) eqn:Eg.
      * destruct (IH (S (first + half)) (len - half - 1)%nat) as (Hr & Ht & Hf).
        { lia. } { lia. }
        { intros i j x y Hi Hij Hj. apply Hpart; lia. }
        repeat split; try lia.
        -- intros i x Hi Ex.
           destruct (Nat.le_gt_cases i (first + half)) as [Hle|Hgt].
           ++ apply (Hpart i (first + half)%nat x xm); trivial; lia.
           ++ apply (Ht i x); trivial; lia.
        -- intros i x Hi Ex. apply (Hf i x); trivial; lia.
      * destruct (IH first half) as (Hr & Ht & Hf).
        { lia. } { lia. }
        { intros i j x y Hi Hij Hj. apply Hpart; lia. }
        repeat split; try lia.
        -- intros i x Hi Ex. apply (Ht i x); trivial.
        -- intros i x Hi Ex.
           destruct (Nat.lt_ge_cases i (first + half)) as [Hlt|Hge].
           ++ apply (Hf i x); trivial; lia.
           ++ destruct (go_right x) eqn:Ex'; trivial.
              rewrite <- Eg. symmetry.
              apply (Hpart (first + half)%nat i xm x); trivial; lia.
Qed.

Lemma bound_search_point (first last : nat) :
  (first <= last)%nat -> (last <= length v)%nat ->
  partitioned go_right v first last ->
  let p := bound_search go_right v first last in
  (first <= p <= last)%nat
  /\ (forall i x, (first <= i < p)%nat ->
                  nth_error v i = Some x -> go_right x = true)
  /\ (forall i x, (p <= i < last)%nat ->
                  nth_error v i = Some x -> go_right x = false).
Proof.
  intros Hfl Hlast Hpart. unfold bound_search.
  assert (E : (first + (last - first))%nat = last) by lia.
  pose proof (bound_loop_point (last - first) first (last - first)) as H.
  rewrite E in H. apply H; trivial.
Qed.
End BoundLoop.

(** ** The active range *)

Lemma time_le_trans : Relations_1.Transitive time_le.
Proof. intros a b c. unfold time_le. apply Qle_trans. Qed.

Lemma sorted_nth_error (v : list ChatMessage) :
  sorted_by_time v ->
  forall i j x y,
    (i <= j)%nat -> nth_error v i = Some x -> nth_error v j = Some y ->
    (m_time x <= m_time y)%Q.
Proof.
  intro Hs. apply (Sorted_StronglySorted time_le_trans) in Hs.
  induction Hs as [|a l Hl IH Ha]; intros i j x y Hij Ei Ej.
  - destruct i; discriminate.
  - destruct i as [|i], j as [|j]; simpl in *; try lia.
    + injection Ei as <-. injection Ej as <-. apply Qle_refl.
    + injection Ei as <-. rewrite Forall_forall in Ha.
      apply (Ha y). eapply nth_error_In; eauto.
    + apply (IH i j); trivial; lia.
Qed.

Lemma filter_none {A : Type} (f : A -> bool) (l : list A) :
  (forall x, In x l -> f x = false) -> filter f l = [].
Proof.
  induction l as [|a l IH]; intro H; simpl; trivial.
  rewrite (H a (or_introl eq_refl)). apply IH. intros; apply H; now right.
Qed.

Lemma filter_all {A : Type} (f : A -> bool) (l : list A) :
  (forall x, In x l -> f x = true) -> filter f l = l.
Proof.
  induction l as [|a l IH]; intro H; simpl; trivial.
  rewrite (H a (or_introl eq_refl)). f_equal. apply IH. intros; apply H; now right.
Qed.

(** A filter that is false before [a], true on [a, b) and false from [b] on
    keeps the span [a, b). *)
Lemma filter_is_span {A : Type} (f : A -> bool) (v : list A) (a b : nat) :
  (a <= b)%nat ->
  (forall i x, (i < a)%nat -> nth_error v i = Some x -> f x = false) ->
  (forall i x, (a <= i < b)%nat -> nth_error v i = Some x -> f x = true) ->
  (forall i x, (b <= i)%nat -> nth_error v i = Some x -> f x = false) ->
  filter f v = span v a b.
Proof.
  intros Hab Hlo Hmid Hhi. unfold span.
  rewrite <- (firstn_skipn a v) at 1.
  rewrite <- (firstn_skipn (b - a) (skipn a v)) at 1.
  rewrite !filter_app.
  rewrite (filter_none f (firstn a v)), (filter_all f (firstn (b - a) (skipn a v))),
          (filter_none f (skipn (b - a) (skipn a v))).
  - now rewrite app_nil_r.
  - intros x Hx. apply In_nth_error in Hx as [n Hn].
    rewrite !nth_error_skipn in Hn. eapply Hhi; [|exact Hn]. lia.
  - intros x Hx. apply In_nth_error in Hx as [n Hn].
    rewrite nth_error_firstn in Hn.
    destruct (n <? b - a)%nat eqn:E; try discriminate.
    apply Nat.ltb_lt in E. rewrite nth_error_skipn in Hn.
    apply (Hmid (a + n)%nat x); trivial; lia.
  - intros x Hx. apply In_nth_error in Hx as [n Hn].
    rewrite nth_error_firstn in Hn.
    destruct (n <? a)%nat eqn:E; try discriminate.
    apply Nat.ltb_lt in E. apply (Hlo n x); trivial.
Qed.

Lemma lower_bound_partitioned (v : list ChatMessage) (val : Q) (lo hi : nat) :
  sorted_by_time v -> partitioned (fun m => msg_lt_time m val) v lo hi.
Proof.
  intros Hs i j x y _ Hij _ Ei Ej. unfold msg_lt_time.
  rewrite !Qltb_lt. intro H.
  eapply Qle_lt_trans; [exact (sorted_nth_error v Hs i j x y Hij Ei Ej) | exact H].
Qed.

Lemma upper_bound_partitioned (v : list ChatMessage) (val : Q) (lo hi : nat) :
  sorted_by_time v -> partitioned (fun m => negb (time_lt_msg val m)) v lo hi.
Proof.
  intros Hs i j x y _ Hij _ Ei Ej. unfold time_lt_msg.
  rewrite !negb_true_iff, !Qltb_ge. intro H.
  eapply Qle_trans; [exact (sorted_nth_error v Hs i j x y Hij Ei Ej) | exact H].
Qed.

(** C1. On a store sorted ascending by timestamp, the active range that
    [render] computes with [lower_bound] on [time - window] and [upper_bound]
    on [time], where [window = fadeIn + hold + fadeOut], is the list of the
    entries whose timestamp lies in [[time - window, time]], as a linear scan
    of the store finds them: nothing outside the interval is included and
    nothing inside it is left out. *)
Theorem active_range_is_linear_scan (r : ChatMessageRenderer) (time : Q) :
  sorted_by_time (m_messages r) ->
  active_messages r time
  = linear_scan (m_messages r) time
                (m_fade_in_time r + m_hold_time r + m_fade_out_time r)%Q.
Proof.
  intro Hs. unfold active_messages, linear_scan. symmetry.
  set (v := m_messages r) in *.
  assert (Hfirst : active_first r time
                   = bound_search (fun m => msg_lt_time m (time_lo r time)) v
                                  0 (length v)) by reflexivity.
  assert (Hlast : active_last r time
                  = bound_search (fun m => negb (time_lt_msg (time_hi time) m)) v
                                 (active_first r time) (length v)) by reflexivity.
  destruct (bound_search_point (fun m => msg_lt_time m (time_lo r time)) v
              0 (length v) (Nat.le_0_l _) (Nat.le_refl _)
              (lower_bound_partitioned v _ _ _ Hs)) as (Hf & Hft & Hff).
  rewrite <- Hfirst in Hf, Hft, Hff.
  destruct (bound_search_point (fun m => negb (time_lt_msg (time_hi time) m)) v
              (active_first r time) (length v) (proj2 Hf) (Nat.le_refl _)
              (upper_bound_partitioned v _ _ _ Hs)) as (Hl & Hlt & Hlf).
  rewrite <- Hlast in Hl, Hlt, Hlf.
  apply filter_is_span; try lia; unfold in_window; fold (time_lo r time).
  - intros i x Hi Ex. apply andb_false_iff. left.
    apply Qleb_gt. apply Qltb_lt. apply (Hft i x); trivial; lia.
  - intros i x Hi Ex. apply andb_true_iff. split.
    + apply Qleb_le. apply Qltb_ge.
      assert (Hlen : (i < length v)%nat)
        by (apply nth_error_Some; congruence).
      apply (Hff i x); trivial; lia.
    + apply Qleb_le. apply Qltb_ge.
      specialize (Hlt i x ltac:(lia) Ex). now apply negb_true_iff in Hlt.
  - intros i x Hi Ex. apply andb_false_iff. right.
    assert (Hlen : (i < length v)%nat)
      by (apply nth_error_Some; congruence).
    specialize (Hlf i x ltac:(lia) Ex). apply negb_false_iff in Hlf.
    apply Qleb_gt. now apply Qltb_lt.
Qed.

(** The witness of C1: the two sample messages at time 1/2. *)
Lemma active_range_is_linear_scan_witness :
  sorted_by_time (m_messages sample_renderer)
  /\ active_messages sample_renderer (1 # 2)
     = linear_scan (m_messages sample_renderer) (1 # 2)
                   (m_fade_in_time sample_renderer + m_hold_time sample_renderer
                    + m_fade_out_time sample_renderer)%Q.
Proof.
  assert (Hs : sorted_by_time (m_messages sample_renderer)).
  { repeat constructor. unfold time_le, Qle. simpl. lia. }
  split; [exact Hs | exact (active_range_is_linear_scan sample_renderer (1 # 2) Hs)].
Defined.

Example active_at_half : active_messages sample_renderer (1 # 2) = [msg_a].
Proof. reflexivity. Qed.

Example active_at_25 : active_messages sample_renderer 25 = [].
Proof. reflexivity. Qed.

(** ** The animation curve *)



Example fade_a_at_half : fade sample_renderer msg_a (1 # 2) = (1 # 2, 1 # 2)%Q.
Proof. reflexivity. Qed.

(** ** Rendering nothing *)

Lemma span_nil {A : Type} (first last : nat) : span (@nil A) first last = [].
Proof. unfold span. now rewrite skipn_nil, firstn_nil. Qed.

(** C4. When the active range is empty, and so whenever the store is empty,
    [render] returns 0 and the renderer it leaves is the one it was given:
    no surface is created, and the surface, the context and the layout that
    exist keep their contents. *)
Theorem render_empty_range {B : Backend} (r : ChatMessageRenderer) (time : Q) :
  (active_messages r time = [] -> render time r = Some (r, 0))
  /\ (m_messages r = [] -> render time r = Some (r, 0)).
Proof.
  assert (H : active_messages r time = [] -> render time r = Some (r, 0)).
  { intro E. unfold render. now rewrite E. }
  split; [exact H|].
  intro E. apply H. unfold active_messages. rewrite E. apply span_nil.
Qed.

(** The witness of C4: both sample messages have faded out at time 25, and
    a renderer without messages. *)
Lemma render_empty_range_witness :
  @render sample_backend 25 sample_renderer = Some (sample_renderer, 0)
  /\ @render sample_backend 3 (newRenderer []) = Some (newRenderer [], 0).
Proof.
  split.
  - apply (proj1 (@render_empty_range sample_backend sample_renderer 25)).
    reflexivity.
  - apply (proj2 (@render_empty_range sample_backend (newRenderer []) 3)).
    reflexivity.
Defined.

(** ** The setters and the drawing objects *)

(** C9. A call of [setWidth], [setHeight] or [setMargin] with a value that
    differs from the current one releases the surface, the context and the
    layout, and the next [drawInit] creates a surface of the new size; a call
    of one of them with the current value, and every call of a colour or a
    timing setter, leaves the three objects as they are. *)
Theorem setters_and_objects (r : ChatMessageRenderer) :
  (forall w, w <> m_width r ->
     objects (setWidth w r) = (None, None, None)
     /\ (r1 <- drawInit (setWidth w r) ;; m_surface r1)
        = Some (mkSurface w (m_height r) []))
  /\ (forall h, h <> m_height r ->
        objects (setHeight h r) = (None, None, None)
        /\ (r1 <- drawInit (setHeight h r) ;; m_surface r1)
           = Some (mkSurface (m_width r) h []))
  /\ (forall m, m <> m_margin r ->
        objects (setMargin m r) = (None, None, None)
        /\ (r1 <- drawInit (setMargin m r) ;; m_layout r1)
           = Some (mkLayout ((m_width r - 2 * m) * PANGO_SCALE)
                            ((m_height r - 2 * m) * PANGO_SCALE) None))
  /\ objects (setWidth (m_width r) r) = objects r
  /\ objects (setHeight (m_height r) r) = objects r
  /\ objects (setMargin (m_margin r) r) = objects r
  /\ (forall c, objects (setColorBackground c r) = objects r)
  /\ (forall c, objects (setColorUser c r) = objects r)
  /\ (forall c, objects (setColorText c r) = objects r)
  /\ (forall t, objects (setFadeInTime t r) = objects r)
  /\ (forall t, objects (setHoldTime t r) = objects r)
  /\ (forall t, objects (setFadeOutTime t r) = objects r).
Proof.
  unfold setWidth, setHeight, setMargin.
  repeat match goal with |- _ /\ _ => split end;
    try (intros v Hv;
         match goal with
         | |- context [(?a =? v)] =>
             replace (a =? v) with false by (symmetry; apply Z.eqb_neq; congruence)
         end; split; reflexivity);
    try (rewrite Z.eqb_refl; reflexivity);
    intros; reflexivity.
Qed.

(** The witness of C9: a renderer that has drawn once is resized from 640 to
    320 and its objects are gone; set to 640 again it keeps them. *)
Lemma setters_and_objects_witness :
  drawInit sample_renderer = Some drawn_renderer
  /\ objects (setWidth 320 drawn_renderer) = (None, None, None)
  /\ objects (setWidth 640 drawn_renderer) = objects drawn_renderer.
Proof.
  destruct (setters_and_objects drawn_renderer) as (Hw & _ & _ & Hsame & _).
  split; [reflexivity|]. split.
  - apply (Hw 320). simpl. lia.
  - exact Hsame.
Defined.

(** The constructor and the setters keep the drawing objects consistent. *)
Lemma newRenderer_consistent (messages : list ChatMessage) :
  objects_consistent (newRenderer messages) = true.
Proof. reflexivity. Qed.

Lemma setters_consistent (r : ChatMessageRenderer) :
  objects_consistent r = true ->
  (forall ms, objects_consistent (setMessages ms r) = true)
  /\ (forall w, objects_consistent (setWidth w r) = true)
  /\ (forall h, objects_consistent (setHeight h r) = true)
  /\ (forall m, objects_consistent (setMargin m r) = true)
  /\ (forall c, objects_consistent (setColorBackground c r) = true)
  /\ (forall c, objects_consistent (setColorUser c r) = true)
  /\ (forall c, objects_consistent (setColorText c r) = true)
  /\ (forall t, objects_consistent (setFadeInTime t r) = true)
  /\ (forall t, objects_consistent (setHoldTime t r) = true)
  /\ (forall t, objects_consistent (setFadeOutTime t r) = true).
Proof.
  intro Hc. unfold setWidth, setHeight, setMargin.
  repeat split; intro v; try exact Hc;
    match goal with
    | |- context [negb ?b] => destruct b; simpl; [exact Hc | reflexivity]
    end.
Qed.

(** ** The loop of [render] *)

Lemma Qltb_comp (a a' b b' : Q) :
  (a == a')%Q -> (b == b')%Q -> Qltb a b = Qltb a' b'.
Proof. intros Ha Hb. unfold Qltb. now rewrite Ha, Hb. Qed.

Lemma round_comp (x y : Q) : (x == y)%Q -> round x = round y.
Proof.
  intro E. unfold round. rewrite (Qltb_comp x y 0 0 E (Qeq_refl 0)).
  destruct (Qltb y 0).
  - f_equal. apply Qfloor_comp. now rewrite E.
  - apply Qfloor_comp. now rewrite E.
Qed.

Lemma with_objects_twice (r : ChatMessageRenderer) a b c d e f :
  with_objects (with_objects r a b c) d e f = with_objects r d e f.
Proof. reflexivity. Qed.

Section RenderLoop.
Context {B : Backend}.

(** One call of [drawMessage] when the three objects exist. *)
Lemma drawMessage_step (r : ChatMessageRenderer) (sf : Surface) (ly : Layout)
      (tx ty : Z) (src : rgba) (mk : option Markup)
      (msg : ChatMessage) (time : Q) :
  exists src' mk',
    drawMessage msg time
      (with_objects r (Some sf) (Some (mkContext tx ty src))
                    (Some (mkLayout (ly_width ly) (ly_height ly) mk)))
    = Some (with_objects r
              (Some (mkSurface (sf_width sf) (sf_height sf)
                       (sf_ops sf
                        ++ painted r ly (mkContext tx ty (0, 0, 0, 1)%Q) msg time)))
              (Some (mkContext tx ty src'))
              (Some (mkLayout (ly_width ly) (ly_height ly) mk')),
            spec_height r ly time msg,
            snd (fade r msg time)).
Proof.
  unfold drawMessage, painted, spec_height, measured_height.
  change (fade (with_objects r (Some sf) (Some (mkContext tx ty src))
                  (Some (mkLayout (ly_width ly) (ly_height ly) mk))) msg time)
    with (fade r msg time).
  destruct (fade r msg time) as [alpha progress]. simpl fst. simpl snd.
  destruct (Qleb alpha (1 / 255)).
  - exists src, mk. destruct sf as [w h ops]. simpl. now rewrite app_nil_r.
  - destruct r as [ms s c l w h m [[[bg0 bg1] bg2] bg3] [[u0 u1] u2]
                     [[c0 c1] c2] fi ho fo].
    unfold drawBackground, set_source_rgba, paint. simpl.
    eexists. eexists. rewrite <- app_assoc. simpl. reflexivity.
Qed.

(** The whole loop. *)
Lemma render_loop_total (time : Q) (r : ChatMessageRenderer) (ly : Layout)
      (tx : Z) :
  forall (active : list ChatMessage) (sf : Surface) (ty : Z) (src : rgba)
         (mk : option Markup) (th : Q),
  exists src' mk' th',
    render_loop active time
      (with_objects r (Some sf) (Some (mkContext tx ty src))
                    (Some (mkLayout (ly_width ly) (ly_height ly) mk))) th
    = Some (with_objects r
              (Some (mkSurface (sf_width sf) (sf_height sf)
                       (sf_ops sf ++ painted_all r ly tx ty time active)))
              (Some (mkContext tx (ty + spec_advance r ly time active) src'))
              (Some (mkLayout (ly_width ly) (ly_height ly) mk')),
            th')
    /\ (th' == th + spec_total r ly time active)%Q.
Proof.
  induction active as [|msg rest IH]; intros sf ty src mk th.
  - exists src, mk, th. simpl. split.
    + destruct sf; simpl. now rewrite app_nil_r, Z.add_0_r.
    + lra.
  - destruct (drawMessage_step r sf ly tx ty src mk msg time)
      as (src1 & mk1 & E1).
    simpl render_loop. rewrite E1. simpl bind.
    rewrite with_objects_twice. simpl cx_tx. simpl cx_ty. simpl cx_source.
    simpl m_surface. simpl m_layout. rewrite Z.add_0_r.
    specialize (IH (mkSurface (sf_width sf) (sf_height sf)
                      (sf_ops sf
                       ++ painted r ly (mkContext tx ty (0, 0, 0, 1)%Q) msg time))
                   (ty + spec_height r ly time msg) src1 mk1
                   (th + snd (fade r msg time)
                         * inject_Z (spec_height r ly time msg))%Q).
    destruct IH as (src' & mk' & th' & E & Hth).
    exists src', mk', th'. split.
    + rewrite E. simpl sf_width. simpl sf_height. simpl sf_ops.
      simpl painted_all. simpl spec_advance.
      rewrite <- app_assoc, Z.add_assoc. reflexivity.
    + rewrite Hth. simpl. lra.
Qed.

(** [drawInit] on consistent objects: the three exist afterwards and the
    surface is blank. *)
Lemma drawInit_consistent (r : ChatMessageRenderer) :
  objects_consistent r = true ->
  exists w h cx ly,
    drawInit r = Some (with_objects r (Some (mkSurface w h [])) (Some cx) (Some ly))
    /\ (m_surface r = None -> w = m_width r /\ h = m_height r).
Proof.
  unfold objects_consistent, drawInit.
  destruct (m_surface r) as [sf|], (m_context r) as [cx|] eqn:Ec,
           (m_layout r) as [ly|] eqn:El; try discriminate; intros _.
  - exists (sf_width sf), (sf_height sf), cx, ly. simpl. split; [reflexivity|].
    discriminate.
  - eexists _, _, _, _. split; [reflexivity|]. intros _. split; reflexivity.
Qed.

(** What a call of [render] with something to draw does. *)
Lemma render_total (r : ChatMessageRenderer) (time : Q) :
  objects_consistent r = true ->
  active_messages r time <> [] ->
  exists ly w h src mk th,
    render_layout r = Some ly
    /\ render time r
       = Some (with_objects r
                 (Some (mkSurface w h
                          (painted_all r ly (m_margin r) 0 time
                                       (active_messages r time))))
                 (Some (mkContext (m_margin r)
                          (spec_advance r ly time (active_messages r time)) src))
                 (Some (mkLayout (ly_width ly) (ly_height ly) mk)),
               round th)
    /\ (th == spec_total r ly time (active_messages r time))%Q
    /\ (m_surface r = None -> w = m_width r /\ h = m_height r).
Proof.
  intros Hc Hne.
  destruct (drawInit_consistent r Hc) as (w & h & cx & ly & Ei & Hwh).
  unfold render, render_layout. rewrite Ei.
  destruct (active_messages r time) as [|m0 rest] eqn:Ea; [congruence|].
  rewrite <- Ea. clear Hne.
  destruct ly as [lw lh mk0]. destruct cx as [tx0 ty0 src0].
  unfold set_identity_matrix, translate. simpl bind.
  rewrite !with_objects_twice. simpl.
  destruct (render_loop_total time r (mkLayout lw lh mk0) (m_margin r)
              (active_messages r time) (mkSurface w h []) 0 src0 mk0 0%Q)
    as (src' & mk' & th' & E & Hth).
  simpl in E. rewrite E. simpl.
  exists (mkLayout lw lh mk0), w, h, src', mk', th'.
  repeat split; try tauto.
  rewrite Hth. lra.
Qed.

(** [render] keeps the drawing objects consistent. *)
Lemma render_consistent (r r' : ChatMessageRenderer) (time : Q) (h : Z) :
  objects_consistent r = true ->
  render time r = Some (r', h) ->
  objects_consistent r' = true.
Proof.
  intros Hc Hr.
  destruct (active_messages r time) as [|m0 rest] eqn:Ea.
  - unfold render in Hr. rewrite Ea in Hr. injection Hr as <- _. exact Hc.
  - assert (Hne : active_messages r time <> []) by congruence.
    destruct (render_total r time Hc Hne)
      as (ly & w & hh & src & mk & th & _ & Er & _ & _).
    rewrite Er in Hr. injection Hr as <- _. reflexivity.
Qed.
End RenderLoop.

(** ** The height that [render] returns *)



(** The first sample message, half faded in, counts for half of its 49
    pixels, and 24.5 rounds to 25; at time 25 nothing is active. *)
Example render_at_half :
  option_map snd (@render sample_backend (1 # 2) sample_renderer) = Some 25.
Proof. vm_compute. reflexivity. Qed.

Example render_at_25 :
  option_map snd (@render sample_backend 25 sample_renderer) = Some 0.
Proof. vm_compute. reflexivity. Qed.

(** ** The alpha of what is painted *)

Lemma fade_alpha_le_1 (r : ChatMessageRenderer) (msg : ChatMessage) (t : Q) :
  (0 < m_fade_in_time r)%Q -> (0 < m_fade_out_time r)%Q ->
  (fst (fade r msg t) <= 1)%Q.
Proof.
  intros Hin Hout. unfold fade.
  destruct (Qltb t (m_time msg + m_fade_in_time r)) eqn:E1; simpl.
  - apply Qltb_lt in E1. apply Qle_shift_div_r; trivial. lra.
  - destruct (Qltb (m_time msg + m_fade_in_time r + m_hold_time r) t) eqn:E2; simpl.
    + apply Qltb_lt in E2.
      assert (0 <= (t - (m_time msg + m_fade_in_time r + m_hold_time r))
                   / m_fade_out_time r)%Q
        by (apply Qle_shift_div_l; trivial; lra).
      lra.
    + lra.
Qed.

Section Tint.
Context {B : Backend}.

Lemma painted_in_range (r : ChatMessageRenderer) (ly : Layout) (cx : Context)
      (msg : ChatMessage) (time : Q) :
  (0 < m_fade_in_time r)%Q -> (0 < m_fade_out_time r)%Q ->
  (0 <= bg_alpha r)%Q -> (bg_alpha r <= 1)%Q ->
  Forall tint_in_range (painted r ly cx msg time).
Proof.
  intros Hin Hout Hb0 Hb1. unfold painted.
  pose proof (fade_alpha_le_1 r msg time Hin Hout) as Hle.
  destruct (Qleb (fst (fade r msg time)) (1 / 255)) eqn:E; [constructor|].
  apply Qleb_gt in E.
  assert (Hpos : (0 < fst (fade r msg time))%Q).
  { eapply Qle_lt_trans; [|exact E]. unfold Qle. simpl. lia. }
  set (alpha := fst (fade r msg time)) in *.
  unfold bg_alpha in Hb0, Hb1.
  destruct (m_color_bg r) as [[[bg0 bg1] bg2] bg3].
  destruct (m_color_text r) as [[c0 c1] c2].
  repeat constructor; unfold tint_alpha; try nra; lra.
Qed.

Lemma painted_all_in_range (r : ChatMessageRenderer) (ly : Layout) (tx : Z)
      (time : Q) (msgs : list ChatMessage) :
  (0 < m_fade_in_time r)%Q -> (0 < m_fade_out_time r)%Q ->
  (0 <= bg_alpha r)%Q -> (bg_alpha r <= 1)%Q ->
  forall ty, Forall tint_in_range (painted_all r ly tx ty time msgs).
Proof.
  intros Hin Hout Hb0 Hb1.
  induction msgs as [|msg rest IH]; intro ty; simpl; [constructor|].
  apply Forall_app. split; [now apply painted_in_range | apply IH].
Qed.
End Tint.

(** C5, as stated, fails: with a background colour of alpha 2 the rectangle
    behind the first sample message, fully opaque at time 5, is filled with
    an alpha of 2. *)
Lemma tint_in_range_counterexample :
  (0 < m_fade_in_time overbright_renderer)%Q
  /\ (0 <= m_hold_time overbright_renderer)%Q
  /\ (0 < m_fade_out_time overbright_renderer)%Q
  /\ In msg_a (active_messages overbright_renderer 5)
  /\ exists r' h sf op,
       @render sample_backend 5 overbright_renderer = Some (r', h)
       /\ m_surface r' = Some sf
       /\ In op (sf_ops sf)
       /\ ~ tint_in_range op.
Proof.
  repeat split; try (unfold Qlt, Qle; simpl; lia).
  - left. reflexivity.
  - eexists. eexists. eexists. eexists.
    split; [vm_compute; reflexivity|].
    split; [reflexivity|].
    split; [left; reflexivity|].
    unfold tint_in_range, tint_alpha. intros [_ H].
    revert H. unfold Qle. simpl. lia.
Qed.

(** C5, amended. For timings with [fadeIn > 0], [hold >= 0] and
    [fadeOut > 0] and a background colour whose own alpha lies in [[0, 1]],
    everything that [render] paints for the messages of the active range is
    tinted with an alpha in [[0, 1]]: the text with the alpha of the message,
    the background with the background alpha times the alpha of the
    message. *)
Theorem tint_in_range_of_render {B : Backend}
        (r : ChatMessageRenderer) (time : Q) :
  objects_consistent r = true ->
  active_messages r time <> [] ->
  (0 < m_fade_in_time r)%Q -> (0 <= m_hold_time r)%Q -> (0 < m_fade_out_time r)%Q ->
  (0 <= bg_alpha r)%Q -> (bg_alpha r <= 1)%Q ->
  exists r' h sf,
    render time r = Some (r', h)
    /\ m_surface r' = Some sf
    /\ Forall tint_in_range (sf_ops sf).
Proof.
  intros Hc Hne Hin _ Hout Hb0 Hb1.
  destruct (render_total r time Hc Hne)
    as (ly & w & h & src & mk & th & _ & Er & _ & _).
  eexists. eexists. eexists. split; [exact Er|]. split; [reflexivity|].
  simpl. now apply painted_all_in_range.
Qed.

(** The witness of C5: the sample renderer, of background alpha 1/2, at time
    1/2. *)
Lemma tint_in_range_of_render_witness :
  exists r' h sf,
    @render sample_backend (1 # 2) sample_renderer = Some (r', h)
    /\ m_surface r' = Some sf
    /\ Forall tint_in_range (sf_ops sf).
Proof.
  apply (@tint_in_range_of_render sample_backend sample_renderer (1 # 2));
    try reflexivity; try (unfold Qlt, Qle; simpl; lia).
  vm_compute. discriminate.
Defined.

(** ** The copy-out *)

Lemma for_range_done {S : Type} (lo hi : Z) (body : Z -> S -> S) (s : S) :
  hi <= lo -> for_range lo hi body s = s.
Proof.
  intro H. unfold for_range. replace (Z.to_nat (hi - lo)) with O by lia.
  reflexivity.
Qed.

Lemma for_range_step {S : Type} (lo hi : Z) (body : Z -> S -> S) (s : S) :
  lo < hi -> for_range lo hi body s = for_range (lo + 1) hi body (body lo s).
Proof.
  intro H. unfold for_range.
  replace (Z.to_nat (hi - lo)) with (Datatypes.S (Z.to_nat (hi - (lo + 1)))) by lia.
  reflexivity.
Qed.

Lemma zrange_done (lo hi : Z) : hi <= lo -> zrange lo hi = [].
Proof.
  intro H. unfold zrange. replace (Z.to_nat (hi - lo)) with O by lia.
  reflexivity.
Qed.

Lemma zrange_step (lo hi : Z) : lo < hi -> zrange lo hi = lo :: zrange (lo + 1) hi.
Proof.
  intro H. unfold zrange.
  replace (Z.to_nat (hi - lo)) with (Datatypes.S (Z.to_nat (hi - (lo + 1)))) by lia.
  simpl. f_equal; [lia|].
  rewrite <- seq_shift, map_map. apply map_ext. intro k. lia.
Qed.

Lemma In_zrange (lo hi k : Z) : In k (zrange lo hi) <-> lo <= k < hi.
Proof.
  unfold zrange. rewrite in_map_iff. split.
  - intros (n & <- & Hn). apply in_seq in Hn. lia.
  - intro H. exists (Z.to_nat (k - lo)). split; [lia|]. apply in_seq. lia.
Qed.

(** Induction over the rounds of a [for] loop. *)
Lemma for_range_ind {S : Type} (body : Z -> S -> S) (hi : Z)
      (P : Z -> S -> Prop) :
  (forall lo s, hi <= lo -> P lo s) ->
  (forall lo s, lo < hi -> P (lo + 1) (body lo s) -> P lo s) ->
  forall lo s, P lo s.
Proof.
  intros Hdone Hstep lo.
  remember (Z.to_nat (hi - lo)) as n eqn:En.
  revert lo En. induction n as [|n IH]; intros lo En s.
  - apply Hdone. lia.
  - apply Hstep; [lia|]. apply IH. lia.
Qed.

Lemma extend_app (in_bytes : Z -> byte) (t : Target) (l1 l2 : list (Z * Z)) :
  extend in_bytes t (l1 ++ l2) = extend in_bytes (extend in_bytes t l1) l2.
Proof. unfold extend. apply fold_left_app. Qed.

Lemma extend_stores (in_bytes : Z -> byte) (l : list (Z * Z)) :
  forall t, tg_stores (extend in_bytes t l) = tg_stores t ++ l.
Proof.
  induction l as [|[o i] l IH]; intro t; simpl.
  - now rewrite app_nil_r.
  - rewrite IH. simpl. now rewrite <- app_assoc.
Qed.

Lemma flat_map_head {A C : Type} (f : A -> list C) (a : A) (l : list A) :
  flat_map f (a :: l) = f a ++ flat_map f l.
Proof. reflexivity. Qed.

Lemma pixel_stores_eq (ib ob ib' ob' : Z) :
  ib = ib' -> ob = ob' -> pixel_stores ib ob = pixel_stores ib' ob'.
Proof. now intros -> ->. Qed.

Lemma copy_pixel_target (in_bytes : Z -> byte) (c : Cursor) :
  target (copy_pixel in_bytes c)
  = extend in_bytes (target c)
           (pixel_stores (in_data c + in_ofs c) (out_data c + out_ofs c)).
Proof.
  unfold copy_pixel, pixel_stores, extend, swapped. simpl.
  repeat (f_equal; try lia).
Qed.

(** The loop over [x]. *)
Lemma copy_pixels (in_bytes : Z -> byte) (hi : Z) :
  forall lo c,
    let c' := for_range lo hi (fun _ => copy_pixel in_bytes) c in
    in_data c' = in_data c
    /\ out_data c' = out_data c
    /\ target c'
       = extend in_bytes (target c)
           (flat_map (fun x => pixel_stores (in_data c + in_ofs c + 4 * (x - lo))
                                            (out_data c + out_ofs c + 4 * (x - lo)))
                     (zrange lo hi)).
Proof.
  apply (for_range_ind (fun _ => copy_pixel in_bytes) hi
           (fun lo c =>
              let c' := for_range lo hi (fun _ => copy_pixel in_bytes) c in
              in_data c' = in_data c
              /\ out_data c' = out_data c
              /\ target c'
                 = extend in_bytes (target c)
                     (flat_map
                        (fun x => pixel_stores (in_data c + in_ofs c + 4 * (x - lo))
                                               (out_data c + out_ofs c + 4 * (x - lo)))
                        (zrange lo hi)))).
  - intros lo c H. cbv zeta. rewrite for_range_done, (zrange_done lo hi) by trivial.
    repeat split; reflexivity.
  - intros lo c H (Hi & Ho & Ht). cbv zeta.
    rewrite for_range_step, (zrange_step lo hi) by trivial.
    split; [exact Hi|]. split; [exact Ho|].
    rewrite Ht, copy_pixel_target, flat_map_head, extend_app.
    f_equal.
    + f_equal. apply pixel_stores_eq; lia.
    + apply flat_map_ext. intro x. apply pixel_stores_eq;
        unfold copy_pixel; cbn [in_data in_ofs out_data out_ofs]; lia.
Qed.

(** The stores of one row whose pointers are [ib] and [ob]. *)
Lemma copy_row_target (in_bytes : Z -> byte) (in_stride out_stride : Z)
      (rc : OfxRectI) (c : Cursor) :
  let c' := copy_row in_bytes in_stride out_stride rc c in
  in_data c' = in_data c - in_stride
  /\ out_data c' = out_data c + out_stride
  /\ target c'
     = extend in_bytes (target c)
         (flat_map (fun x => pixel_stores (in_data c + 4 * (x - x1 rc))
                                          (out_data c + 4 * (x - x1 rc)))
                   (zrange (x1 rc) (x2 rc))).
Proof.
  unfold copy_row.
  destruct (copy_pixels in_bytes (x2 rc) (x1 rc)
              (mkCursor (in_data c) (out_data c) 0 0 (target c)))
    as (Hi & Ho & Ht).
  simpl in *. rewrite Hi, Ho, Ht. repeat split.
  f_equal. apply flat_map_ext. intro x. apply pixel_stores_eq; lia.
Qed.

(** The loop over [y]. *)
Lemma copy_rows (in_bytes : Z -> byte) (in_stride out_stride : Z)
      (rc : OfxRectI) (hi : Z) :
  forall lo c,
    target (for_range lo hi (fun _ => copy_row in_bytes in_stride out_stride rc) c)
    = extend in_bytes (target c)
        (flat_map
           (fun y =>
              flat_map
                (fun x =>
                   pixel_stores
                     (in_data c - (y - lo) * in_stride + 4 * (x - x1 rc))
                     (out_data c + (y - lo) * out_stride + 4 * (x - x1 rc)))
                (zrange (x1 rc) (x2 rc)))
           (zrange lo hi)).
Proof.
  apply (for_range_ind (fun _ => copy_row in_bytes in_stride out_stride rc) hi
           (fun lo c =>
              target (for_range lo hi
                        (fun _ => copy_row in_bytes in_stride out_stride rc) c)
              = extend in_bytes (target c)
                  (flat_map
                     (fun y =>
                        flat_map
                          (fun x =>
                             pixel_stores
                               (in_data c - (y - lo) * in_stride + 4 * (x - x1 rc))
                               (out_data c + (y - lo) * out_stride + 4 * (x - x1 rc)))
                          (zrange (x1 rc) (x2 rc)))
                     (zrange lo hi)))).
  - intros lo c H. rewrite for_range_done, (zrange_done lo hi) by trivial. reflexivity.
  - intros lo c H IH.
    rewrite for_range_step, (zrange_step lo hi) by trivial. rewrite IH.
    destruct (copy_row_target in_bytes in_stride out_stride rc c) as (Hi & Ho & Ht).
    rewrite Hi, Ho, Ht, flat_map_head, extend_app. f_equal.
    + f_equal. apply flat_map_ext. intro x. apply pixel_stores_eq; lia.
    + apply flat_map_ext. intro y. apply flat_map_ext. intro x.
      apply pixel_stores_eq; lia.
Qed.

Lemma In_spec_stores (h in_stride out_stride : Z) (rc : OfxRectI) (d s : Z) :
  In (d, s) (spec_stores h in_stride out_stride rc)
  <-> exists y x c,
        y1 rc <= y < y2 rc /\ x1 rc <= x < x2 rc /\ 0 <= c < 4
        /\ d = y * out_stride + 4 * x + c
        /\ s = (h - y - 1) * in_stride + 4 * x + swapped c.
Proof.
  unfold spec_stores. rewrite in_flat_map. split.
  - intros (y & Hy & H). apply in_flat_map in H as (x & Hx & H).
    apply in_map_iff in H as (c & E & Hc).
    apply In_zrange in Hy, Hx. unfold spec_store in E. injection E as <- <-.
    exists y, x, c. repeat split; try lia; simpl in Hc; lia.
  - intros (y & x & c & Hy & Hx & Hc & -> & ->).
    exists y. split; [now apply In_zrange|].
    apply in_flat_map. exists x. split; [now apply In_zrange|].
    apply in_map_iff. exists c. split; [reflexivity|]. simpl. lia.
Qed.

Lemma spec_stores_nil (h in_stride out_stride : Z) (rc : OfxRectI) :
  x2 rc <= x1 rc \/ y2 rc <= y1 rc ->
  spec_stores h in_stride out_stride rc = [].
Proof.
  intro H. destruct (spec_stores h in_stride out_stride rc) as [|[d s] l] eqn:E;
    trivial.
  assert (Hin : In (d, s) (spec_stores h in_stride out_stride rc))
    by (rewrite E; now left).
  apply In_spec_stores in Hin as (y & x & c & Hy & Hx & _). lia.
Qed.





Section CopyOut.
Context {B : Backend}.

(** The copy-out performs the stores of the specification, in order. *)
Lemma copy_result_stores (h : Z) (r : ChatMessageRenderer) (sf : Surface)
      (rw : OfxRectI) (out_stride : Z) (t : Target) :
  m_surface r = Some sf -> 0 < h ->
  copy_result h r rw out_stride t
  = Some (extend (surface_get_data sf) t
            (spec_stores h (surface_get_stride sf) out_stride
               (clipRectI rw (mkRect 0 0 (getWidth r) h)))).
Proof.
  intros Hsf Hh. unfold copy_result, getStride, getData.
  replace (0 <? h) with true by (symmetry; now apply Z.ltb_lt).
  rewrite Hsf. cbn [bind]. rewrite copy_rows. cbn [target in_data out_data].
  f_equal. f_equal. unfold spec_stores.
  apply flat_map_ext. intro y. apply flat_map_ext. intro x.
  unfold pixel_stores. apply map_ext. intro c. unfold spec_store.
  f_equal; lia.
Qed.

(** A render that returns a height other than zero leaves a surface. *)
Lemma render_leaves_surface (r0 r : ChatMessageRenderer) (time : Q) (h : Z) :
  objects_consistent r0 = true ->
  render time r0 = Some (r, h) ->
  h <> 0 ->
  exists sf, m_surface r = Some sf /\ getWidth r = getWidth r0.
Proof.
  intros Hc Hr Hh.
  destruct (active_messages r0 time) as [|m0 rest] eqn:Ea.
  - unfold render in Hr. rewrite Ea in Hr. congruence.
  - assert (Hne : active_messages r0 time <> []) by congruence.
    destruct (render_total r0 time Hc Hne)
      as (ly & w & hh & src & mk & th & _ & Er & _ & _).
    rewrite Er in Hr. injection Hr as <- _.
    eexists. split; reflexivity.
Qed.
End CopyOut.

(** A window with no pixel in [[0, width) x [0, h)] is clipped to a rectangle
    without rows or without columns. *)
Lemma clipped_outside (rw : OfxRectI) (width h : Z) :
  (forall x y, x1 rw <= x < x2 rw -> y1 rw <= y < y2 rw ->
               0 <= x < width -> 0 <= y < h -> False) ->
  let rc := clipRectI rw (mkRect 0 0 width h) in
  x2 rc <= x1 rc \/ y2 rc <= y1 rc.
Proof.
  intro Hout. cbn [clipRectI x1 x2 y1 y2].
  destruct (Z_lt_le_dec (Z.max (x1 rw) 0) (Z.min (x2 rw) width))
    as [Hx|Hx]; [|now left].
  destruct (Z_lt_le_dec (Z.max (y1 rw) 0) (Z.min (y2 rw) h))
    as [Hy|Hy]; [|now right].
  exfalso.
  apply (Hout (Z.max (x1 rw) 0) (Z.max (y1 rw) 0)); lia.
Qed.


(** C8. When the render window has no pixel in common with the painted
    rectangle [[0, width) x [0, h)], [h] being the height the render
    returned, the copy-out stores nothing: the destination is left as it
    was. *)
Theorem copy_out_outside_painted {B : Backend} (r0 r : ChatMessageRenderer)
        (time : Q) (h : Z) (rw : OfxRectI) (out_stride : Z) (t : Target) :
  objects_consistent r0 = true ->
  render time r0 = Some (r, h) ->
  (forall x y, x1 rw <= x < x2 rw -> y1 rw <= y < y2 rw ->
               0 <= x < getWidth r -> 0 <= y < h -> False) ->
  copy_result h r rw out_stride t = Some t.
Proof.
  intros Hc Hr Hout.
  destruct (Z_lt_le_dec 0 h) as [Hh|Hh].
  - destruct (render_leaves_surface r0 r time h Hc Hr ltac:(lia)) as (sf & Hsf & _).
    rewrite (copy_result_stores h r sf rw out_stride t Hsf Hh).
    rewrite spec_stores_nil; [reflexivity|].
    now apply clipped_outside.
  - unfold copy_result.
    replace (0 <? h) with false by (symmetry; now apply Z.ltb_ge).
    reflexivity.
Qed.


(** The witness of C8: a window to the right of the frame after the same
    render. *)
Lemma copy_out_outside_painted_witness :
  exists r,
    @render sample_backend (1 # 2) sample_renderer = Some (r, 25)
    /\ @copy_result sample_backend 25 r window_beside 2560 blank_target
       = Some blank_target.
Proof.
  assert (Hr : exists r, @render sample_backend (1 # 2) sample_renderer = Some (r, 25)).
  { eexists. vm_compute. reflexivity. }
  destruct Hr as (r & Hr).
  exists r. split; [exact Hr|].
  apply (@copy_out_outside_painted sample_backend sample_renderer r (1 # 2) 25
           window_beside 2560 blank_target eq_refl Hr).
  assert (Hw : getWidth r = 640).
  { destruct (@render_leaves_surface sample_backend sample_renderer r (1 # 2) 25
                eq_refl Hr ltac:(lia)) as (_ & _ & E).
    exact E. }
  rewrite Hw. unfold window_beside. simpl. intros. lia.
Defined.

(** The render action as a whole, for a window beside what was painted:
    the render target is cleared and nothing else is stored into it. *)
Lemma effectRender_outside_painted {B : Backend} (rq : RenderRequest)
      (priv : InstanceData) (r : ChatMessageRenderer) (h : Z) :
  objects_consistent (cmr priv) = true ->
  rq_depth_is_byte rq = true ->
  rq_components_is_rgba rq = true ->
  render (rq_time rq / framerate priv)%Q (cmr priv) = Some (r, h) ->
  let rRender := clipRectI (rq_window rq) (rq_bounds rq) in
  (forall x y, x1 rRender <= x < x2 rRender -> y1 rRender <= y < y2 rRender ->
               0 <= x < getWidth r -> 0 <= y < h -> False) ->
  effectRender rq priv
  = Some (mkInstance (framerate priv) r,
          Some (mkTarget (clear_target rRender (rq_rowbytes rq) (rq_data rq)) [])).
Proof.
  intros Hc Hd Hk Hr rRender Hout. unfold effectRender.
  rewrite Hd, Hk, Hr. cbn [negb bind]. fold rRender.
  replace (copy_result h r rRender (rq_rowbytes rq)
             (mkTarget (clear_target rRender (rq_rowbytes rq) (rq_data rq)) []))
    with (Some (mkTarget (clear_target rRender (rq_rowbytes rq) (rq_data rq)) []));
    [reflexivity|].
  symmetry. destruct (Z_lt_le_dec 0 h) as [Hh|Hh].
  - destruct (render_leaves_surface _ r _ h Hc Hr ltac:(lia)) as (sf & Hsf & _).
    rewrite (copy_result_stores h r sf _ _ _ Hsf Hh).
    rewrite spec_stores_nil; [reflexivity|]. now apply clipped_outside.
  - unfold copy_result.
    replace (0 <? h) with false by (symmetry; now apply Z.ltb_ge).
    reflexivity.
Qed.

(** When the height returned is at most the height of the surface, every
    row that the copy-out reads is a row of the surface. *)
Lemma source_rows_within_capped_height (h height y : Z) (rw : OfxRectI) (width : Z) :
  h <= height ->
  let rc := clipRectI rw (mkRect 0 0 width h) in
  y1 rc <= y < y2 rc ->
  0 <= h - y - 1 < height.
Proof. simpl. lia. Qed.

(** C10. The height that [render] returns is not bounded by the height of
    the surface, so the copy-out reads rows that the surface does not have:
    with the default size of 640 by 360 and eight held messages of 49 pixels
    each, [render] returns 392, and the copy of the whole frame reads, for
    the pixel at row 0 and column 0, at byte offset 391 * 2560 + 2 of a
    buffer of 360 * 2560 bytes. *)
Theorem copy_out_reads_past_surface :
  exists r sf t' d s,
    @render sample_backend 9 crowded_renderer = Some (r, 392)
    /\ m_surface r = Some sf
    /\ sf_height sf = getHeight r
    /\ getHeight r = 360
    /\ @copy_result sample_backend 392 r full_frame 2560 blank_target = Some t'
    /\ In (d, s) (tg_stores t')
    /\ s = (392 - 0 - 1) * @surface_get_stride sample_backend sf + 4 * 0 + 2
    /\ @surface_get_stride sample_backend sf * sf_height sf <= s.
Proof.
  eexists. eexists. eexists. eexists. eexists.
  split; [vm_compute; reflexivity|].
  split; [reflexivity|].
  split; [reflexivity|].
  split; [reflexivity|].
  split; [apply (@copy_result_stores sample_backend); [reflexivity | lia]|].
  split.
  - rewrite extend_stores. apply in_or_app. right.
    apply In_spec_stores. exists 0, 0, 0.
    repeat split; try reflexivity; simpl; lia.
  - split; [reflexivity|]. vm_compute. discriminate.
Qed.

(** ** Loading *)





Section Loading.
Context {X : XmlLib}.


(** It is empty when the document has no [popcorn] element, as is the
    document of a file that does not exist. *)
Lemma loadFromFile_no_element (filename : string) :
  child (snd (load_file filename)) "popcorn" = None ->
  loadFromFile filename = [].
Proof.
  unfold loadFromFile. destruct (load_file filename) as [st doc]. simpl.
  now intros ->.
Qed.

End Loading.

(** C6. [loadFromFile] does not return the empty sequence for every file
    that cannot be parsed: it drops the status of [load_file], so for a log
    cut short before its closing tag, which pugixml reports as an error while
    keeping the nodes it has read, it returns the entries read so far,
    sorted, and they become the store. *)
Theorem loadFromFile_keeps_partial_parse :
  fst (@load_file sample_xml "truncated.xml") = status_end_element_mismatch
  /\ @loadFromFile sample_xml "truncated.xml"
     = [mkChatMessage 3 "a" "hi"; mkChatMessage 7 "b" "yo"]
  /\ m_messages (cmr (@doReloadMessages sample_xml "truncated.xml"
                        (mkInstance 25 (newRenderer []))))
     = [mkChatMessage 3 "a" "hi"; mkChatMessage 7 "b" "yo"]
  /\ @loadFromFile sample_xml "missing.xml" = [].
Proof. repeat split; reflexivity. Qed.

(* ------------------------------------------------------------------------- *)
(** * Further properties of the code                                          *)
(* ------------------------------------------------------------------------- *)

(** ** Rectangles *)

(** X1. [clipRectI] computes the intersection: a pixel lies in the clipped
    rectangle exactly when it lies in both rectangles. *)
Theorem clipRectI_intersection (r1 r2 : OfxRectI) (x y : Z) :
  in_rect (clipRectI r1 r2) x y <-> in_rect r1 x y /\ in_rect r2 x y.
Proof. unfold in_rect, clipRectI. simpl. lia. Qed.

(** X2. Clipping does not depend on the order of the rectangles nor on their
    grouping, and clipping again with the same rectangle changes nothing: the
    two clips of [effectRender] amount to one intersection of the window, the
    bounds of the image and the painted rectangle. *)
Theorem clipRectI_lattice (a b c : OfxRectI) :
  clipRectI a b = clipRectI b a
  /\ clipRectI (clipRectI a b) c = clipRectI a (clipRectI b c)
  /\ clipRectI (clipRectI a b) b = clipRectI a b.
Proof.
  unfold clipRectI. simpl. repeat split; f_equal; lia.
Qed.

(** ** The span of the active messages *)

Lemma bound_loop_range {A : Type} (go_right : A -> bool) (v : list A) (fuel : nat) :
  forall first len,
    (first <= bound_loop go_right v fuel first len <= first + len)%nat.
Proof.
  induction fuel as [|fuel IH]; intros first len; [simpl; lia|].
  destruct len as [|len']; [simpl; lia|].
  pose proof (Nat.le_div2 len') as Hhalf.
  cbn [bound_loop]. set (half := Nat.div2 (S len')) in *.
  destruct (nth_error v (first + half)) as [x|]; [|lia].
  destruct (go_right x).
  - specialize (IH (S (first + half)) (S len' - half - 1)%nat). lia.
  - specialize (IH first half). lia.
Qed.

(** The two indices of [render] are in order and within the vector. *)
Lemma active_indices (r : ChatMessageRenderer) (time : Q) :
  (active_first r time <= active_last r time <= length (m_messages r))%nat.
Proof.
  set (v := m_messages r).
  assert (Hf : (active_first r time <= length v)%nat).
  { unfold active_first, lower_bound, bound_search. fold v.
    pose proof (bound_loop_range (fun m => msg_lt_time m (time_lo r time)) v
                  (length v - 0) 0 (length v - 0)). lia. }
  unfold active_last, upper_bound, bound_search. fold v.
  pose proof (bound_loop_range (fun m => negb (time_lt_msg (time_hi time) m)) v
                (length v - active_first r time) (active_first r time)
                (length v - active_first r time)). lia.
Qed.

(** X3. Whatever the store holds, sorted or not, the two searches of
    [render] give [first <= last <= size]: the span is a block of consecutive
    entries of the store, of [last - first] entries, and never reaches outside
    the vector. *)
Theorem active_span_in_bounds (r : ChatMessageRenderer) (time : Q) :
  (active_first r time <= active_last r time <= length (m_messages r))%nat
  /\ length (active_messages r time) = (active_last r time - active_first r time)%nat
  /\ m_messages r
     = firstn (active_first r time) (m_messages r)
       ++ active_messages r time
       ++ skipn (active_last r time) (m_messages r).
Proof.
  pose proof (active_indices r time) as Hl.
  set (v := m_messages r) in *.
  split; [exact Hl|]. unfold active_messages, span. fold v. split.
  - rewrite length_firstn, length_skipn. lia.
  - rewrite <- (firstn_skipn (active_first r time) v) at 1. f_equal.
    rewrite <- (firstn_skipn (active_last r time - active_first r time)
                             (skipn (active_first r time) v)) at 1.
    f_equal. rewrite skipn_skipn. f_equal. lia.
Qed.

(** What the two searches find on a sorted store. *)
Lemma sorted_span_indices (r : ChatMessageRenderer) (time : Q) :
  sorted_by_time (m_messages r) ->
  (forall i x, (i < active_first r time)%nat ->
               nth_error (m_messages r) i = Some x ->
               (m_time x < time_lo r time)%Q)
  /\ (forall i x, (active_first r time <= i)%nat ->
                  nth_error (m_messages r) i = Some x ->
                  (time_lo r time <= m_time x)%Q)
  /\ (forall i x, (active_first r time <= i < active_last r time)%nat ->
                  nth_error (m_messages r) i = Some x ->
                  (m_time x <= time)%Q)
  /\ (forall i x, (active_last r time <= i)%nat ->
                  nth_error (m_messages r) i = Some x ->
                  (time < m_time x)%Q).
Proof.
  intro Hs. set (v := m_messages r) in *.
  destruct (bound_search_point (fun m => msg_lt_time m (time_lo r time)) v
              0 (length v) (Nat.le_0_l _) (Nat.le_refl _)
              (lower_bound_partitioned v _ _ _ Hs)) as (Hf & Hft & Hff).
  change (bound_search (fun m => msg_lt_time m (time_lo r time)) v 0 (length v))
    with (active_first r time) in Hf, Hft, Hff.
  destruct (bound_search_point (fun m => negb (time_lt_msg (time_hi time) m)) v
              (active_first r time) (length v) (proj2 Hf) (Nat.le_refl _)
              (upper_bound_partitioned v _ _ _ Hs)) as (Hl & Hlt & Hlf).
  change (bound_search (fun m => negb (time_lt_msg (time_hi time) m)) v
            (active_first r time) (length v))
    with (active_last r time) in Hl, Hlt, Hlf.
  assert (Hlen : forall i x, nth_error v i = Some x -> (i < length v)%nat).
  { intros i x E. apply nth_error_Some. congruence. }
  repeat split.
  - intros i x Hi Ex. apply Qltb_lt. apply (Hft i x); trivial. lia.
  - intros i x Hi Ex. apply Qltb_ge. apply (Hff i x); trivial.
    specialize (Hlen i x Ex). lia.
  - intros i x Hi Ex. apply Qltb_ge.
    specialize (Hlt i x Hi Ex). now apply negb_true_iff in Hlt.
  - intros i x Hi Ex. apply Qltb_lt.
    specialize (Hlf i x (conj Hi (Hlen i x Ex)) Ex).
    now apply negb_false_iff in Hlf.
Qed.

(** X4. On a sorted store [first] is the number of entries older than the
    window: the entries that [render] skips at the front are those with a
    timestamp below [time - (fadeIn + hold + fadeOut)], and no others. *)
Theorem active_first_counts_older (r : ChatMessageRenderer) (time : Q) :
  sorted_by_time (m_messages r) ->
  active_first r time
  = length (filter (fun m => Qltb (m_time m) (time_lo r time)) (m_messages r)).
Proof.
  intro Hs. destruct (sorted_span_indices r time Hs) as (Hold & Hnew & _ & _).
  pose proof (active_indices r time) as Hb.
  rewrite (filter_is_span _ (m_messages r) 0 (active_first r time)).
  - unfold span. simpl. rewrite length_firstn. lia.
  - lia.
  - intros; lia.
  - intros i x Hi Ex. apply Qltb_lt. apply (Hold i x); trivial; lia.
  - intros i x Hi Ex. apply Qltb_ge. now apply (Hnew i x).
Qed.

Lemma active_first_counts_older_witness :
  sorted_by_time (m_messages crowded_renderer)
  /\ active_first crowded_renderer 21
     = length (filter (fun m => Qltb (m_time m) (time_lo crowded_renderer 21))
                      (m_messages crowded_renderer)).
Proof.
  assert (Hs : sorted_by_time (m_messages crowded_renderer)).
  { repeat constructor; unfold time_le, Qle; simpl; lia. }
  split; [exact Hs | exact (active_first_counts_older crowded_renderer 21 Hs)].
Defined.

(** X5. On a sorted store, when no entry has its timestamp in
    [[time - window, time]] (before the first message, or once the last one
    has faded out), [render] returns 0 and leaves the renderer, its surface
    included, as it was. *)
Theorem render_nothing_in_window {B : Backend} (r : ChatMessageRenderer) (time : Q) :
  sorted_by_time (m_messages r) ->
  (forall m, In m (m_messages r) ->
             (m_time m < time_lo r time)%Q \/ (time < m_time m)%Q) ->
  render time r = Some (r, 0).
Proof.
  intros Hs Hout.
  destruct (sorted_span_indices r time Hs) as (_ & Hnew & Hle & _).
  pose proof (active_indices r time) as Hb.
  assert (E : active_messages r time = []).
  { destruct (Nat.eq_dec (active_first r time) (active_last r time)) as [Eq|Ne].
    - unfold active_messages, span. rewrite Eq, Nat.sub_diag. reflexivity.
    - exfalso.
      destruct (nth_error (m_messages r) (active_first r time)) as [x|] eqn:Ex.
      2:{ apply nth_error_None in Ex. lia. }
      specialize (Hnew _ x (Nat.le_refl _) Ex).
      specialize (Hle (active_first r time) x ltac:(lia) Ex).
      destruct (Hout x (nth_error_In _ _ Ex)) as [H|H]; lra. }
  unfold render. now rewrite E.
Qed.

Lemma render_nothing_in_window_witness :
  @render sample_backend 25 sample_renderer = Some (sample_renderer, 0).
Proof.
  apply (@render_nothing_in_window sample_backend sample_renderer 25).
  - repeat constructor; unfold time_le, Qle; simpl; lia.
  - intros m [<-|[<-|[]]]; left; unfold time_lo, Qlt; simpl; lia.
Defined.

(** ** The fade curve beyond the window *)

(** The three branches of [fade]. *)
Lemma fade_cases (r : ChatMessageRenderer) (msg : ChatMessage) (t : Q) :
  let t_hold := (m_time msg + m_fade_in_time r)%Q in
  let t_fout := (m_time msg + m_fade_in_time r + m_hold_time r)%Q in
  ((t < t_hold)%Q
   /\ fade r msg t = (((t - m_time msg) / m_fade_in_time r)%Q,
                      ((t - m_time msg) / m_fade_in_time r)%Q))
  \/ ((t_hold <= t)%Q /\ (t_fout < t)%Q
      /\ fade r msg t = ((1 - (t - t_fout) / m_fade_out_time r)%Q, 1%Q))
  \/ ((t_hold <= t)%Q /\ (t <= t_fout)%Q /\ fade r msg t = (1%Q, 1%Q)).
Proof.
  intros t_hold t_fout. subst t_hold t_fout. unfold fade.
  destruct (Qltb t (m_time msg + m_fade_in_time r)) eqn:E1.
  - left. apply Qltb_lt in E1. split; [exact E1 | reflexivity].
  - apply Qltb_ge in E1. right.
    destruct (Qltb (m_time msg + m_fade_in_time r + m_hold_time r) t) eqn:E2.
    + left. apply Qltb_lt in E2. split; [exact E1|]. split; [exact E2 | reflexivity].
    + right. apply Qltb_ge in E2. split; [exact E1|]. split; [exact E2 | reflexivity].
Qed.

Lemma Qdiv_le_mono (a b c : Q) : (0 < c)%Q -> (a <= b)%Q -> (a / c <= b / c)%Q.
Proof.
  intros Hc Hab. unfold Qdiv. apply Qmult_le_compat_r; trivial.
  apply Qlt_le_weak. now apply Qinv_lt_0_compat.
Qed.


Lemma Qdiv_le_1 (a c : Q) : (0 < c)%Q -> (a <= c)%Q -> (a / c <= 1)%Q.
Proof. intros Hc Ha. apply Qle_shift_div_r; trivial. lra. Qed.




Lemma fade_progress_le_1 (r : ChatMessageRenderer) (msg : ChatMessage) (t : Q) :
  (0 < m_fade_in_time r)%Q ->
  (snd (fade r msg t) <= 1)%Q.
Proof.
  intro Hin.
  destruct (fade_cases r msg t) as [(H1 & E)|[(H1 & H2 & E)|(H1 & H2 & E)]];
    rewrite E; simpl; try lra.
  apply Qdiv_le_1; trivial; lra.
Qed.



(** X8. The alpha of a message never decreases up to the end of the hold
    and never increases from the start of the hold on: it rises, stays at
    one, then falls, without a jump upward or downward in between. *)
Theorem fade_monotone (r : ChatMessageRenderer) (msg : ChatMessage) (t t' : Q) :
  (0 < m_fade_in_time r)%Q -> (0 <= m_hold_time r)%Q -> (0 < m_fade_out_time r)%Q ->
  (t <= t')%Q ->
  ((t' <= m_time msg + m_fade_in_time r + m_hold_time r)%Q ->
   (fst (fade r msg t) <= fst (fade r msg t'))%Q)
  /\ ((m_time msg + m_fade_in_time r <= t)%Q ->
      (fst (fade r msg t') <= fst (fade r msg t))%Q).
Proof.
  intros Hin Hhold Hout Htt.
  pose proof (fade_alpha_le_1 r msg t Hin Hout) as Hle.
  pose proof (fade_alpha_le_1 r msg t' Hin Hout) as Hle'.
  destruct (fade_cases r msg t) as [(H1 & E)|[(H1 & H2 & E)|(H1 & H2 & E)]];
    destruct (fade_cases r msg t') as [(H1' & E')|[(H1' & H2' & E')|(H1' & H2' & E')]];
    rewrite E in *; rewrite E' in *; simpl in *; split; intro Hb; try lra.
  - apply Qdiv_le_mono; trivial; lra.
  - assert ((t - (m_time msg + m_fade_in_time r + m_hold_time r))
            / m_fade_out_time r
            <= (t' - (m_time msg + m_fade_in_time r + m_hold_time r))
               / m_fade_out_time r)%Q
      by (apply Qdiv_le_mono; trivial; lra).
    lra.
Qed.

Lemma fade_monotone_witness :
  (fst (fade sample_renderer msg_a (1 # 4)) <= fst (fade sample_renderer msg_a (1 # 2)))%Q
  /\ (fst (fade sample_renderer msg_a (33 # 2)) <= fst (fade sample_renderer msg_a 16))%Q.
Proof.
  split.
  - apply (fade_monotone sample_renderer msg_a (1 # 4) (1 # 2));
      unfold Qlt, Qle; simpl; lia.
  - apply (fade_monotone sample_renderer msg_a 16 (33 # 2));
      unfold Qlt, Qle; simpl; lia.
Defined.

(** ** Rounding *)

Lemma Qfloor_half (n : Z) : Qfloor (inject_Z n + (1 # 2)) = n.
Proof.
  pose proof (Qfloor_le (inject_Z n + (1 # 2))) as Hlo.
  pose proof (Qfloor_resp_le (inject_Z n) (inject_Z n + (1 # 2)) ltac:(lra)) as Hhi.
  rewrite Qfloor_Z in Hhi.
  assert (H : (inject_Z (Qfloor (inject_Z n + (1 # 2))) < inject_Z (n + 1))%Q).
  { rewrite inject_Z_plus. eapply Qle_lt_trans; [exact Hlo|].
    change (inject_Z 1) with 1%Q. lra. }
  rewrite <- Zlt_Qlt in H. lia.
Qed.

Lemma round_inject_Z (n : Z) : round (inject_Z n) = n.
Proof.
  unfold round. destruct (Qltb (inject_Z n) 0) eqn:E.
  - rewrite (Qfloor_comp (- inject_Z n + (1 # 2)) (inject_Z (- n) + (1 # 2))).
    + rewrite Qfloor_half. lia.
    + rewrite inject_Z_opp. reflexivity.
  - apply Qfloor_half.
Qed.

Lemma round_le (x y : Q) : (x <= y)%Q -> round x <= round y.
Proof.
  intro H. unfold round.
  destruct (Qltb x 0) eqn:Ex, (Qltb y 0) eqn:Ey.
  - apply Qltb_lt in Ex, Ey.
    pose proof (Qfloor_resp_le (- y + (1 # 2)) (- x + (1 # 2)) ltac:(lra)). lia.
  - apply Qltb_lt in Ex. apply Qltb_ge in Ey.
    pose proof (Qfloor_resp_le 0 (- x + (1 # 2)) ltac:(lra)) as H1.
    pose proof (Qfloor_resp_le 0 (y + (1 # 2)) ltac:(lra)) as H2.
    change (Qfloor 0) with 0 in H1, H2. lia.
  - apply Qltb_ge in Ex. apply Qltb_lt in Ey. lra.
  - apply Qfloor_resp_le. lra.
Qed.

Lemma trunc_range (x : Q) (n : Z) :
  (0 <= x)%Q -> (x <= inject_Z n)%Q -> 0 <= trunc x <= n.
Proof.
  intros H0 Hn. unfold trunc.
  replace (Qltb x 0) with false by (symmetry; now apply Qltb_ge).
  pose proof (Qfloor_resp_le 0 x H0) as H1.
  pose proof (Qfloor_resp_le x (inject_Z n) Hn) as H2.
  rewrite Qfloor_Z in H2. change (Qfloor 0) with 0 in H1. lia.
Qed.

(** ** The markup of a drawn message *)

(** X9. When the three components of the user colour lie in [[0, 1]], the
    four numbers that [drawMessage] prints with [%02x] into the colour of the
    markup, for a message it does draw, are bytes: each lies in [[0, 255]],
    and the alpha is at least 1. *)
Theorem markup_colour_is_bytes (r : ChatMessageRenderer) (msg : ChatMessage)
        (time : Q) :
  (0 < m_fade_in_time r)%Q -> (0 <= m_hold_time r)%Q -> (0 < m_fade_out_time r)%Q ->
  (let '(u0, u1, u2) := m_color_user r in
   (0 <= u0 <= 1 /\ 0 <= u1 <= 1 /\ 0 <= u2 <= 1)%Q) ->
  Qleb (fst (fade r msg time)) (1 / 255) = false ->
  let mk := markup_of r msg (fst (fade r msg time)) in
  0 <= mk_red mk <= 255
  /\ 0 <= mk_green mk <= 255
  /\ 0 <= mk_blue mk <= 255
  /\ 1 <= mk_alpha mk <= 255.
Proof.
  intros Hin Hhold Hout Hu Hdrawn.
  pose proof (fade_alpha_le_1 r msg time Hin Hout) as Hle.
  apply Qleb_gt in Hdrawn.
  set (alpha := fst (fade r msg time)) in *.
  unfold markup_of. destruct (m_color_user r) as [[u0 u1] u2]. simpl.
  destruct Hu as ((H0 & H0') & (H1 & H1') & (H2 & H2')).
  assert (Ha : (1 < alpha * 255)%Q).
  { assert (E : (1 / 255 * 255 == 1)%Q) by reflexivity. nra. }
  assert (Hb : forall x, (0 <= x)%Q -> (x <= 1)%Q -> 0 <= trunc (x * 255) <= 255).
  { intros x Hx Hx'. apply trunc_range; [nra|]. change (inject_Z 255) with 255%Q. nra. }
  repeat split; try (apply Hb; trivial; lra).
  unfold trunc.
  replace (Qltb (alpha * 255) 0) with false by (symmetry; apply Qltb_ge; lra).
  pose proof (Qfloor_resp_le 1 (alpha * 255) ltac:(lra)) as H.
  change (Qfloor 1) with 1 in H. exact H.
Qed.

Lemma markup_colour_is_bytes_witness :
  let mk := markup_of sample_renderer msg_a (fst (fade sample_renderer msg_a (1 # 2))) in
  0 <= mk_red mk <= 255
  /\ 0 <= mk_green mk <= 255
  /\ 0 <= mk_blue mk <= 255
  /\ 1 <= mk_alpha mk <= 255.
Proof.
  apply (markup_colour_is_bytes sample_renderer msg_a (1 # 2));
    try reflexivity; unfold Qlt, Qle; simpl; lia.
Defined.

(** ** What [render] keeps *)

Lemma newRenderer_well_formed (messages : list ChatMessage) :
  well_formed (newRenderer messages).
Proof. split; [reflexivity|]. split; intros x E; discriminate. Qed.

Lemma released_well_formed (r : ChatMessageRenderer) (w h m : Z) :
  well_formed (drawRelease (with_size r w h m)).
Proof. split; [reflexivity|]. split; intros x E; discriminate. Qed.

Lemma with_messages_well_formed (r : ChatMessageRenderer) ms :
  well_formed r -> well_formed (with_messages r ms).
Proof. now intro. Qed.

Lemma with_colors_well_formed (r : ChatMessageRenderer) bg user text :
  well_formed r -> well_formed (with_colors r bg user text).
Proof. now intro. Qed.

Lemma with_timing_well_formed (r : ChatMessageRenderer) fi ho fo :
  well_formed r -> well_formed (with_timing r fi ho fo).
Proof. now intro. Qed.

Lemma setWidth_well_formed (r : ChatMessageRenderer) (w : Z) :
  well_formed r -> well_formed (setWidth w r).
Proof.
  intro Hw. unfold setWidth.
  destruct (m_width r =? w); [exact Hw | apply released_well_formed].
Qed.

Lemma setHeight_well_formed (r : ChatMessageRenderer) (h : Z) :
  well_formed r -> well_formed (setHeight h r).
Proof.
  intro Hw. unfold setHeight.
  destruct (m_height r =? h); [exact Hw | apply released_well_formed].
Qed.

Lemma setMargin_well_formed (r : ChatMessageRenderer) (m : Z) :
  well_formed r -> well_formed (setMargin m r).
Proof.
  intro Hw. unfold setMargin.
  destruct (m_margin r =? m); [exact Hw | apply released_well_formed].
Qed.

(** X10. The constructor gives, and every setter keeps, a renderer whose
    drawing objects are all there or all absent and, when there, have the
    size that the current width, height and margin ask for: a surface of a
    stale size never survives a change of dimension. *)
Theorem setters_keep_well_formed (r : ChatMessageRenderer) :
  well_formed r ->
  (forall ms, well_formed (setMessages ms r))
  /\ (forall w, well_formed (setWidth w r))
  /\ (forall h, well_formed (setHeight h r))
  /\ (forall m, well_formed (setMargin m r))
  /\ (forall c, well_formed (setColorBackground c r))
  /\ (forall c, well_formed (setColorUser c r))
  /\ (forall c, well_formed (setColorText c r))
  /\ (forall t, well_formed (setFadeInTime t r))
  /\ (forall t, well_formed (setHoldTime t r))
  /\ (forall t, well_formed (setFadeOutTime t r)).
Proof.
  intro Hw.
  repeat match goal with |- _ /\ _ => split end; intro v.
  - now apply with_messages_well_formed.
  - now apply setWidth_well_formed.
  - now apply setHeight_well_formed.
  - now apply setMargin_well_formed.
  - now apply with_colors_well_formed.
  - now apply with_colors_well_formed.
  - now apply with_colors_well_formed.
  - now apply with_timing_well_formed.
  - now apply with_timing_well_formed.
  - now apply with_timing_well_formed.
Qed.

Lemma setters_keep_well_formed_witness :
  well_formed (setHeight 720 drawn_renderer)
  /\ well_formed (setFadeInTime 2 drawn_renderer).
Proof.
  assert (Hw : well_formed drawn_renderer).
  { split; [reflexivity|].
    split; intros x E; injection E as <-; split; reflexivity. }
  destruct (setters_keep_well_formed drawn_renderer Hw)
    as (_ & _ & Hh & _ & _ & _ & _ & Hf & _).
  split; [apply Hh | apply Hf].
Defined.

Section RenderShape.
Context {B : Backend}.

Lemma drawInit_well_formed (r : ChatMessageRenderer) :
  well_formed r ->
  exists cx mk,
    drawInit r
    = Some (with_objects r
              (Some (mkSurface (m_width r) (m_height r) []))
              (Some cx)
              (Some (mkLayout (ly_width (fresh_layout r))
                              (ly_height (fresh_layout r)) mk))).
Proof.
  intros (Hc & Hs & Hl). unfold objects_consistent in Hc. unfold drawInit.
  destruct (m_surface r) as [sf|] eqn:Es, (m_context r) as [cx|] eqn:Ec,
           (m_layout r) as [ly|] eqn:El; try discriminate.
  - destruct (Hs sf eq_refl) as (<- & <-).
    destruct ly as [lw lh mk]. destruct (Hl _ eq_refl) as (E1 & E2).
    simpl in E1, E2. subst lw lh.
    exists cx, mk. reflexivity.
  - eexists. eexists. reflexivity.
Qed.

(** What a call of [render] with something to draw leaves. *)
Lemma render_shape (r : ChatMessageRenderer) (time : Q) :
  well_formed r ->
  active_messages r time <> [] ->
  exists src mk th,
    render time r
    = Some (with_objects r
              (Some (mkSurface (m_width r) (m_height r)
                       (painted_all r (fresh_layout r) (m_margin r) 0 time
                                    (active_messages r time))))
              (Some (mkContext (m_margin r)
                       (spec_advance r (fresh_layout r) time
                                     (active_messages r time)) src))
              (Some (mkLayout (ly_width (fresh_layout r))
                              (ly_height (fresh_layout r)) mk)),
            round th)
    /\ (th == spec_total r (fresh_layout r) time (active_messages r time))%Q.
Proof.
  intros Hw Hne.
  destruct (drawInit_well_formed r Hw) as (cx & mk0 & Ei).
  unfold render. rewrite Ei.
  destruct (active_messages r time) as [|m0 rest] eqn:Ea; [congruence|].
  rewrite <- Ea. clear Hne.
  destruct cx as [tx0 ty0 src0].
  remember (fresh_layout r) as L eqn:EL.
  unfold set_identity_matrix, translate. simpl bind.
  rewrite !with_objects_twice. simpl.
  destruct (render_loop_total time r L (m_margin r)
              (active_messages r time)
              (mkSurface (m_width r) (m_height r) []) 0 src0 mk0 0%Q)
    as (src' & mk' & th' & E & Hth).
  simpl in E. rewrite E. simpl.
  exists src', mk', th'. split; [reflexivity|].
  rewrite Hth. lra.
Qed.

Lemma painted_all_config (r : ChatMessageRenderer) a b c ly tx time msgs :
  forall ty,
    painted_all (with_objects r a b c) ly tx ty time msgs
    = painted_all r ly tx ty time msgs.
Proof.
  induction msgs as [|msg rest IH]; intro ty; [reflexivity|].
  cbn [painted_all]. rewrite IH. reflexivity.
Qed.

Lemma spec_total_config (r : ChatMessageRenderer) a b c ly time msgs :
  spec_total (with_objects r a b c) ly time msgs = spec_total r ly time msgs.
Proof.
  induction msgs as [|msg rest IH]; [reflexivity|].
  cbn [spec_total]. rewrite IH. reflexivity.
Qed.
End RenderShape.

(** [render] keeps the renderer well formed. *)
Lemma render_well_formed {B : Backend} (r r' : ChatMessageRenderer)
      (time : Q) (h : Z) :
  well_formed r ->
  render time r = Some (r', h) ->
  well_formed r'.
Proof.
  intros Hw Hr.
  destruct (active_messages r time) as [|m0 rest] eqn:Ea.
  - unfold render in Hr. rewrite Ea in Hr. now injection Hr as <- _.
  - assert (Hne : active_messages r time <> []) by congruence.
    destruct (render_shape r time Hw Hne) as (src & mk & th & Er & _).
    rewrite Er in Hr. injection Hr as <- _.
    split; [reflexivity|].
    split; intros x E; injection E as <-; split; reflexivity.
Qed.

(** X11. A call of [render] changes nothing of a renderer but its three
    drawing objects: the messages, the size, the margin, the colours and the
    timings are those it was given, and the objects are again consistent and
    of the current size. *)
Theorem render_keeps_configuration {B : Backend} (r r' : ChatMessageRenderer)
        (time : Q) (h : Z) :
  well_formed r ->
  render time r = Some (r', h) ->
  r' = with_objects r (m_surface r') (m_context r') (m_layout r')
  /\ well_formed r'.
Proof.
  intros Hw Hr.
  destruct (active_messages r time) as [|m0 rest] eqn:Ea.
  - unfold render in Hr. rewrite Ea in Hr. injection Hr as <- _.
    split; [now destruct r | exact Hw].
  - assert (Hne : active_messages r time <> []) by congruence.
    pose proof (render_well_formed r r' time h Hw Hr) as Hw'.
    destruct (render_shape r time Hw Hne) as (src & mk & th & Er & _).
    rewrite Er in Hr. injection Hr as <- _.
    split; [reflexivity | exact Hw'].
Qed.

Lemma render_keeps_configuration_witness :
  exists r',
    @render sample_backend (1 # 2) sample_renderer = Some (r', 25)
    /\ r' = with_objects sample_renderer (m_surface r') (m_context r') (m_layout r')
    /\ well_formed r'.
Proof.
  assert (Hr : exists r', @render sample_backend (1 # 2) sample_renderer = Some (r', 25)).
  { eexists. vm_compute. reflexivity. }
  destruct Hr as (r' & Hr). exists r'. split; [exact Hr|].
  exact (@render_keeps_configuration sample_backend sample_renderer r' (1 # 2) 25
           (newRenderer_well_formed _) Hr).
Defined.

(** X12. Rendering again at the same time gives the same height and the
    same surface: the surface is cleared at the start of every call, so that
    nothing of an earlier frame shows in a later one. *)
Theorem render_is_repeatable {B : Backend} (r r1 : ChatMessageRenderer)
        (time : Q) (h : Z) :
  well_formed r ->
  render time r = Some (r1, h) ->
  exists r2, render time r1 = Some (r2, h) /\ m_surface r2 = m_surface r1.
Proof.
  intros Hw Hr.
  pose proof (render_well_formed r r1 time h Hw Hr) as Hw1.
  destruct (active_messages r time) as [|m0 rest] eqn:Ea.
  - unfold render in Hr. rewrite Ea in Hr. injection Hr as <- <-.
    exists r. split; [|reflexivity]. unfold render. now rewrite Ea.
  - assert (Hne : active_messages r time <> []) by congruence.
    clear Ea. destruct (render_shape r time Hw Hne) as (src & mk & th & Er & Hth).
    rewrite Er in Hr.
    match type of Hr with
    | Some (?w, _) = _ => set (W := w) in *
    end.
    assert (E1 : r1 = W) by congruence.
    assert (E2 : h = round th) by congruence.
    subst r1 h. clear Hr.
    assert (HneW : active_messages W time <> []) by exact Hne.
    destruct (render_shape W time Hw1 HneW) as (src1 & mk1 & th1 & Er1 & Hth1).
    eexists. split.
    + rewrite Er1. replace (round th) with (round th1); [reflexivity|].
      apply round_comp. rewrite Hth1, Hth. unfold W.
      rewrite spec_total_config. reflexivity.
    + unfold W. cbn [m_surface with_objects].
      rewrite painted_all_config. reflexivity.
Qed.

Lemma render_is_repeatable_witness :
  exists r1 r2,
    @render sample_backend (1 # 2) sample_renderer = Some (r1, 25)
    /\ @render sample_backend (1 # 2) r1 = Some (r2, 25)
    /\ m_surface r2 = m_surface r1.
Proof.
  assert (Hr : exists r', @render sample_backend (1 # 2) sample_renderer = Some (r', 25)).
  { eexists. vm_compute. reflexivity. }
  destruct Hr as (r1 & Hr).
  destruct (@render_is_repeatable sample_backend sample_renderer r1 (1 # 2) 25
              (newRenderer_well_formed _) Hr) as (r2 & H2 & Hs).
  exists r1, r2. repeat split; trivial.
Defined.

(** ** Bounds on the height returned *)

Section HeightBounds.
Context {B : Backend}.
Variable r : ChatMessageRenderer.
Variable ly : Layout.
Variable time : Q.
Hypothesis Hin : (0 < m_fade_in_time r)%Q.
Hypothesis Hmargin : 0 <= m_margin r.
Hypothesis Hsize : forall l, 0 <= snd (layout_get_size l).

Lemma spec_height_nonneg (msg : ChatMessage) : 0 <= spec_height r ly time msg.
Proof.
  unfold spec_height, measured_height, PANGO_PIXELS.
  destruct (Qleb (fst (fade r msg time)) (1 / 255)); [lia|].
  match goal with
  | |- context [Z.shiftr ?d 10] =>
      assert (0 <= Z.shiftr d 10) by (apply Z.shiftr_nonneg;
        match goal with
        | |- context [layout_get_size ?l] => specialize (Hsize l); lia
        end)
  end.
  lia.
Qed.

Lemma contribution_bounds (msg : ChatMessage) :
  (0 <= snd (fade r msg time) * inject_Z (spec_height r ly time msg)
   <= inject_Z (spec_height r ly time msg))%Q.
Proof.
  pose proof (spec_height_nonneg msg) as Hh.
  rewrite Zle_Qle in Hh. change (inject_Z 0) with 0%Q in Hh.
  pose proof (fade_progress_le_1 r msg time Hin) as Hp1.
  unfold spec_height in *.
  destruct (Qleb (fst (fade r msg time)) (1 / 255)) eqn:E.
  - change (inject_Z 0) with 0%Q. lra.
  - assert (Hp0 : (0 <= snd (fade r msg time))%Q).
    { apply Qleb_gt in E.
      destruct (fade_cases r msg time) as [(_ & E')|[(_ & _ & E')|(_ & _ & E')]];
        rewrite E' in *; simpl in *; try lra.
      assert ((0 < 1 / 255)%Q) by reflexivity. lra. }
    split; nra.
Qed.

Lemma spec_total_bounds (msgs : list ChatMessage) :
  (0 <= spec_total r ly time msgs
   <= inject_Z (spec_advance r ly time msgs))%Q.
Proof.
  induction msgs as [|msg rest IH]; cbn [spec_total spec_advance].
  - change (inject_Z 0) with 0%Q. lra.
  - rewrite inject_Z_plus. pose proof (contribution_bounds msg). lra.
Qed.
End HeightBounds.

(** X13. With a positive fade-in time, a margin that is not negative and a
    text backend that measures no negative height, the height that [render]
    returns is never negative and never exceeds the distance that the cursor
    has moved down: the weighted height is at most the extent painted. *)
Theorem render_height_bounds {B : Backend} (r r' : ChatMessageRenderer)
        (time : Q) (h : Z) :
  well_formed r ->
  (0 < m_fade_in_time r)%Q ->
  0 <= m_margin r ->
  (forall l, 0 <= snd (layout_get_size l)) ->
  render time r = Some (r', h) ->
  0 <= h
  /\ (active_messages r time <> [] ->
      exists cx, m_context r' = Some cx /\ cx_tx cx = m_margin r /\ h <= cx_ty cx).
Proof.
  intros Hw Hin Hm Hsize Hr.
  destruct (active_messages r time) as [|m0 rest] eqn:Ea.
  - unfold render in Hr. rewrite Ea in Hr. injection Hr as <- <-.
    split; [lia | congruence].
  - assert (Hne : active_messages r time <> []) by congruence.
    rewrite <- Ea. clear Ea.
    destruct (render_shape r time Hw Hne) as (src & mk & th & Er & Hth).
    rewrite Er in Hr. injection Hr as <- <-.
    pose proof (spec_total_bounds r (fresh_layout r) time Hin Hm Hsize
                  (active_messages r time)) as (H0 & H1).
    rewrite <- Hth in H0, H1.
    split.
    + pose proof (round_le 0 th H0) as H. change (round 0) with 0 in H. exact H.
    + intros _. eexists. split; [reflexivity|]. split; [reflexivity|].
      cbn [cx_ty]. pose proof (round_le _ _ H1) as H.
      now rewrite round_inject_Z in H.
Qed.

Lemma render_height_bounds_witness :
  exists r',
    @render sample_backend (1 # 2) sample_renderer = Some (r', 25)
    /\ 0 <= 25
    /\ (active_messages sample_renderer (1 # 2) <> [] ->
        exists cx, m_context r' = Some cx
                   /\ cx_tx cx = m_margin sample_renderer /\ 25 <= cx_ty cx).
Proof.
  assert (Hr : exists r', @render sample_backend (1 # 2) sample_renderer = Some (r', 25)).
  { eexists. vm_compute. reflexivity. }
  destruct Hr as (r' & Hr). exists r'. split; [exact Hr|].
  apply (@render_height_bounds sample_backend sample_renderer r' (1 # 2) 25);
    try exact Hr; try apply newRenderer_well_formed;
    try (unfold Qlt, Qle; simpl; lia).
Defined.

(** ** Reconfiguration *)



(** ** The instance actions *)

(** X15. An edit of a parameter is applied in two steps.  A change that is
    not a user edit changes nothing; a user edit of a parameter other than
    the data file marks the instance and leaves the renderer as it is; the
    end of the edit applies [doReconfigure] once if the instance is marked,
    clears the mark, and a second end of edit does nothing. *)
Theorem edits_are_batched {X : XmlLib} (p : HostParams)
        (changeReason typeChanged objChanged : string) (i : Instance) :
  (changeReason <> kOfxChangeUserEdited ->
   effectInstanceChanged p changeReason typeChanged objChanged i
   = (i, kOfxStatReplyDefault))
  /\ (is_dynamic_param objChanged = true ->
      priv_data (fst (effectInstanceChanged p changeReason typeChanged objChanged i))
      = priv_data i)
  /\ (is_dynamic_param objChanged = true ->
      fst (effectEndInstanceChanged p
             (fst (effectInstanceChanged p kOfxChangeUserEdited kOfxTypeParameter
                                         objChanged i)))
      = mkInst false (doReconfigure p (priv_data i)))
  /\ needReconfig (fst (effectEndInstanceChanged p i)) = false
  /\ effectEndInstanceChanged p (fst (effectEndInstanceChanged p i))
     = (fst (effectEndInstanceChanged p i), kOfxStatReplyDefault).
Proof.
  assert (Hdyn : is_dynamic_param objChanged = true ->
                 String.eqb objChanged "dataFile" = false).
  { intro H. destruct (String.eqb objChanged "dataFile") eqn:E; trivial.
    apply String.eqb_eq in E. subst objChanged. discriminate H. }
  repeat match goal with |- _ /\ _ => split end.
  - intro H. unfold effectInstanceChanged.
    apply String.eqb_neq in H. now rewrite H.
  - intro H. unfold effectInstanceChanged.
    rewrite (Hdyn H), H, andb_false_r.
    destruct (negb (changeReason =? kOfxChangeUserEdited)%string); trivial.
    now destruct (typeChanged =? kOfxTypeParameter)%string.
  - intro H. unfold effectInstanceChanged.
    rewrite !String.eqb_refl, (Hdyn H), H. reflexivity.
  - unfold effectEndInstanceChanged.
    destruct (needReconfig i) eqn:E; trivial.
  - unfold effectEndInstanceChanged.
    destruct (needReconfig i) eqn:E; cbn [fst needReconfig]; [reflexivity|].
    now rewrite E.
Qed.

Lemma edits_are_batched_witness :
  fst (effectEndInstanceChanged
         (mkParams "log.xml" (1280, 720)%Q 16 (0, 0, 0, 1)%Q (1, 0, 0)%Q (1, 1, 1)%Q 2 10 2)
         (fst (@effectInstanceChanged sample_xml
                 (mkParams "log.xml" (1280, 720)%Q 16 (0, 0, 0, 1)%Q (1, 0, 0)%Q
                           (1, 1, 1)%Q 2 10 2)
                 kOfxChangeUserEdited kOfxTypeParameter "renderSize"
                 (mkInst false (mkInstance 25 drawn_renderer)))))
  = mkInst false
      (doReconfigure
         (mkParams "log.xml" (1280, 720)%Q 16 (0, 0, 0, 1)%Q (1, 0, 0)%Q (1, 1, 1)%Q 2 10 2)
         (mkInstance 25 drawn_renderer)).
Proof.
  apply (@edits_are_batched sample_xml
           (mkParams "log.xml" (1280, 720)%Q 16 (0, 0, 0, 1)%Q (1, 0, 0)%Q (1, 1, 1)%Q 2 10 2)
           kOfxChangeUserEdited kOfxTypeParameter "renderSize"
           (mkInst false (mkInstance 25 drawn_renderer))).
  reflexivity.
Defined.


(** ** The render action on a well-formed instance *)

Section RenderAction.
Context {B : Backend}.



End RenderAction.



(** ** Every instance *)

Section Instances.
Context {X : XmlLib} {B : Backend}.



End Instances.


(** ** The bytes of the render target *)








(** ** Loading, once more *)


(** ** The stack of bubbles *)

Lemma painted_all_stacked {B : Backend} (r : ChatMessageRenderer) (ly : Layout)
      (time : Q) (msgs : list ChatMessage) :
  forall ty,
    well_stacked (m_margin r) ty (painted_all r ly (m_margin r) ty time msgs).
Proof.
  induction msgs as [|msg rest IH]; intro ty; cbn [painted_all]; [exact I|].
  specialize (IH (ty + spec_height r ly time msg)).
  unfold painted, spec_height, measured_height in *.
  destruct (Qleb (fst (fade r msg time)) (1 / 255)).
  - rewrite Z.add_0_r in *. exact IH.
  - destruct (m_color_bg r) as [[[bg0 bg1] bg2] bg3].
    destruct (m_color_text r) as [[c0 c1] c2].
    cbn [app well_stacked cx_tx cx_ty].
    repeat match goal with |- _ /\ _ => split end; try reflexivity.
    eexists. split; [|exact IH].
    rewrite !inject_Z_plus, !inject_Z_mult. ring.
Qed.

(** X21. After a call of [render] that had something to draw, the surface
    holds a stack of bubbles and nothing else: each rectangle is followed by
    its text, the rectangles are at the left margin, the text lies a margin
    to the right of and below the corner of its rectangle, the first
    rectangle is at the top, and each next one starts exactly one margin
    below the bottom of the one before. *)
Theorem render_stacks_bubbles {B : Backend} (r r' : ChatMessageRenderer)
        (time : Q) (h : Z) :
  well_formed r ->
  active_messages r time <> [] ->
  render time r = Some (r', h) ->
  exists sf, m_surface r' = Some sf /\ well_stacked (m_margin r) 0 (sf_ops sf).
Proof.
  intros Hw Hne Hr.
  destruct (render_shape r time Hw Hne) as (src & mk & th & Er & _).
  rewrite Er in Hr. injection Hr as <- _.
  eexists. split; [reflexivity|]. cbn [sf_ops].
  apply painted_all_stacked.
Qed.

Lemma render_stacks_bubbles_witness :
  exists r' sf,
    @render sample_backend 9 crowded_renderer = Some (r', 392)
    /\ m_surface r' = Some sf
    /\ well_stacked (m_margin crowded_renderer) 0 (sf_ops sf).
Proof.
  assert (Hr : exists r', @render sample_backend 9 crowded_renderer = Some (r', 392)).
  { eexists. vm_compute. reflexivity. }
  destruct Hr as (r' & Hr).
  destruct (@render_stacks_bubbles sample_backend crowded_renderer r' 9 392
              (newRenderer_well_formed _)) as (sf & Hsf & Hst); trivial.
  { vm_compute. discriminate. }
  exists r', sf. now repeat split.
Defined.

(** ** Loading and unloading the plugin *)

(** X22. [effectLoad] succeeds exactly when a host has been set and offers
    the image-effect, property and parameter suites; it then keeps the three
    suites and always installs the plugin's own thread suite, whatever the
    host offers.  [effectUnload] drops the three suites only, so that loading
    again afterwards gives the state of the first load. *)
Theorem effectLoad_effect (g : Globals) :
  (snd (effectLoad g) = kOfxStatOK
   <-> exists host e pr pa,
         gHost g = Some host
         /\ host kOfxImageEffectSuite 1 = Some e
         /\ host kOfxPropertySuite 1 = Some pr
         /\ host kOfxParameterSuite 1 = Some pa)
  /\ (snd (effectLoad g) = kOfxStatOK ->
      gThreadHost (fst (effectLoad g)) = Some cThreadLocal
      /\ gEffectHost (fst (effectLoad g)) <> None
      /\ gPropHost (fst (effectLoad g)) <> None
      /\ gParamHost (fst (effectLoad g)) <> None)
  /\ (gHost g <> None ->
      effectLoad (fst (effectUnload (fst (effectLoad g)))) = effectLoad g).
Proof.
  unfold effectLoad, effectUnload.
  destruct (gHost g) as [host|] eqn:Eh.
  - destruct (host kOfxImageEffectSuite 1) as [e|] eqn:Ee,
             (host kOfxPropertySuite 1) as [pr|] eqn:Epr,
             (host kOfxParameterSuite 1) as [pa|] eqn:Epa;
      cbn [is_null orb fst snd gHost gThreadHost gEffectHost gPropHost gParamHost];
      rewrite ?Ee, ?Epr, ?Epa; cbn [is_null orb];
      (split; [split; [intro H; try discriminate H; now exists host, e, pr, pa
                      | intros (host' & e' & pr' & pa' & E0 & E1 & E2 & E3);
                        try reflexivity; congruence]
              | split; [intro H; try discriminate H;
                        repeat split; try reflexivity; discriminate
                       | intros _; reflexivity]]).
  - cbn [snd fst]. split; [split|split].
    + discriminate.
    + intros (host & _ & _ & _ & E & _). discriminate.
    + discriminate.
    + intro H. now elim H.
Qed.

Lemma effectLoad_effect_witness :
  gThreadHost
    (fst (effectLoad
            (ofxSetHost (Some (fun _ _ => Some 7)) (mkGlobals None None None None None))))
  = Some cThreadLocal.
Proof.
  apply (effectLoad_effect
           (ofxSetHost (Some (fun _ _ => Some 7)) (mkGlobals None None None None None))).
  reflexivity.
Defined.
